(** * classify_pdbs: batch classification of PDB identifiers

    A shallow embedding of [scripts/classify_pdbs.py] and the properties of
    its two batch runners, the checkpoint writes and the summary report. *)

From Stdlib Require Import Floats ZArith Uint63 QArith.
From stdpp Require Import strings list.

Open Scope string_scope.
Open Scope list_scope.
Open Scope nat_scope.

(** ** Python objects

    The script builds dictionaries from group names to list objects and
    grows the lists in place with [append].  List objects live in a store
    and are named by their position in it; a dictionary holds references.
    No dictionary of the script is written after it has been built (there is
    no [d[k] = v], [del], [update] or [setdefault] in the source), so a
    dictionary is a value: its items in insertion order. *)

Abbreviation loc := nat (only parsing).
Abbreviation heap := (list (list string)) (only parsing).
Abbreviation pydict := (list (string * nat)) (only parsing).

(** What [pkl.dump] writes for a dictionary: the keys in order, each with the
    contents of its list at the time of the call. *)
Abbreviation pkl := (list (string * list string)) (only parsing).

Definition pickle (h : heap) (d : pydict) : pkl :=
  (λ kl, (kl.1, h !!! kl.2)) <$> d.

Fixpoint dict_get {V : Type} (d : list (string * V)) (k : string) : option V :=
  match d with
  | [] => None
  | (k', v) :: d' => if decide (k' = k) then Some v else dict_get d' k
  end.

(** ** The retrieval capability

    [download_pdb] is imported from [folding.utils.ops]; the script only looks
    at the truth value of what it returns and at whether it raises.  [Raised]
    stands for any exception that [except Exception] catches, [RaisedBase]
    for one that it lets through: an exception that derives from
    [BaseException] and not from [Exception], as [KeyboardInterrupt],
    [SystemExit] and [GeneratorExit] do.  The answer depends on the arguments
    only: the capability is deterministic. *)

Inductive download_result :=
  | Returned (truthy : bool)
  | Raised
  | RaisedBase.

Global Instance download_result_eq_dec : EqDecision download_result.
Proof. solve_decision. Defined.

Inductive outcome := Complete | Incomplete | NotRetrievable.

Global Instance outcome_eq_dec : EqDecision outcome.
Proof. solve_decision. Defined.

(** ** Exceptions, output and the world *)

(** [DownloadException] is what the capability raises under [Exception],
    [DownloadBaseException] what it raises outside of it. *)
Inductive exn :=
  | KeyError (k : string)
  | ZeroDivisionError
  | DownloadException
  | DownloadBaseException.

(** [isinstance(e, Exception)] *)
Definition derives_from_Exception (e : exn) : bool :=
  match e with
  | KeyError _ => true
  | ZeroDivisionError => true
  | DownloadException => true
  | DownloadBaseException => false
  end.

(** The lines of [verbose_analysis] carry these seven numbers. *)
Record summary := Summary {
  sum_number_of_pdb_ids : nat;
  sum_total_complete : nat;
  sum_complete_percentage : float;
  sum_total_incomplete : nat;
  sum_incomplete_percentage : float;
  sum_total_not_downloadable : nat;
  sum_not_downloadable_percentage : float
}.

Inductive printed :=
  | AnalysisSummary (s : summary)
  | AnalysisDone.

(** [disk] is the sequence of [save_pkl] calls, oldest first, each with the
    path it was given and the data it wrote. *)
Record world := World {
  objs : heap;
  disk : list (string * pkl);
  stdout : list printed
}.

Inductive result (A : Type) :=
  | Ok (a : A)
  | Raise (e : exn).
Arguments Ok {A} a.
Arguments Raise {A} e.

Definition M (A : Type) : Type := world → result A * world.

Definition ret {A} (a : A) : M A := λ w, (Ok a, w).

Definition bind {A B} (m : M A) (f : A → M B) : M B :=
  λ w, match m w with
       | (Ok a, w') => f a w'
       | (Raise e, w') => (Raise e, w')
       end.

Definition raise {A} (e : exn) : M A := λ w, (Raise e, w).

(** [try: body / except Exception: handler]: the handler runs on an
    exception that derives from [Exception]; any other leaves the statement
    as it came. *)
Definition try_except {A} (body handler : M A) : M A :=
  λ w, match body w with
       | (Ok a, w') => (Ok a, w')
       | (Raise e, w') =>
           if derives_from_Exception e then handler w' else (Raise e, w')
       end.

Declare Scope py_scope.
Delimit Scope py_scope with py.
Notation "'let*' x := m 'in' k" := (bind m (λ x, k))
  (at level 10, x name, m at level 100, k at level 200, only parsing) : py_scope.
Notation "m ;; k" := (bind m (λ _, k))
  (at level 100, k at level 200, right associativity, only parsing) : py_scope.
Open Scope py_scope.

Fixpoint for_each {A S} (xs : list A) (body : A → S → M S) (s : S) : M S :=
  match xs with
  | [] => ret s
  | x :: xs' => let* s' := body x s in for_each xs' body s'
  end.

(** *** Operations on objects *)

(** [[]]: a new list object. *)
Definition new_list : M loc :=
  λ w, (Ok (length (objs w)),
        World (objs w ++ [[]]) (disk w) (stdout w)).

(** [d[k]] *)
Definition getitem (d : pydict) (k : string) : M loc :=
  match dict_get d k with
  | Some l => ret l
  | None => raise (KeyError k)
  end.

(** [l.append(x)] *)
Definition list_append (l : loc) (x : string) : M unit :=
  λ w, (Ok tt, World (alter (λ v, v ++ [x]) l (objs w)) (disk w) (stdout w)).

(** The elements of a list object, as [len] or a [for] loop sees them.  A
    loop of the script never appends to the list it runs over (it appends to
    the lists of the three dictionaries it built itself), so the loop sees
    the elements the list has when the loop starts. *)
Definition list_read (l : loc) : M (list string) :=
  λ w, (Ok (objs w !!! l), w).

Definition print (p : printed) : M unit :=
  λ w, (Ok tt, World (objs w) (disk w) (stdout w ++ [p])).

(** ** The script *)

Definition COMPLETE_IDs_FILE := "./pdb_ids_complete.pkl".
Definition INCOMPLETE_IDs_FILE := "./pdb_ids_incomplete.pkl".
Definition NOT_DOWNLOADABLE_IDs_FILE := "./pdb_ids_not_downloadable.pkl".
Definition COMPLETE_PDB_FILES := "./complete_pdbs/".

Definition save_pkl (file : string) (data : pydict) : M unit :=
  λ w, (Ok tt,
        World (objs w) (disk w ++ [(file, pickle (objs w) data)]) (stdout w)).

(** [sum([len(v) for v in d.values()])] *)
Definition sum_len (d : pydict) : M nat :=
  λ w, (Ok (sum_list ((λ kl, length (objs w !!! kl.2)) <$> d)), w).

Definition float_of_nat (n : nat) : float :=
  PrimFloat.of_uint63 (Uint63.of_Z (Z.of_nat n)).

(** [a / b * 100] on two [int]s: true division raises on a zero divisor and
    is otherwise the correctly rounded binary64 quotient (both operands are
    list lengths, far below 2^53, so they convert exactly). *)
Definition percentage (a b : nat) : M float :=
  if decide (b = 0) then raise ZeroDivisionError
  else ret (float_of_nat a / float_of_nat b * 100)%float.

Definition verbose_analysis
    (complete incomplete not_downloadable : pydict) (number_of_pdb_ids : nat)
    : M unit :=
  let* total_complete := sum_len complete in
  let* total_incomplete := sum_len incomplete in
  let* total_not_downloadable := sum_len not_downloadable in
  let* complete_percentage := percentage total_complete number_of_pdb_ids in
  let* incomplete_percentage := percentage total_incomplete number_of_pdb_ids in
  let* not_downloadable_percentage :=
    percentage total_not_downloadable number_of_pdb_ids in
  print (AnalysisSummary
           (Summary number_of_pdb_ids
                    total_complete complete_percentage
                    total_incomplete incomplete_percentage
                    total_not_downloadable not_downloadable_percentage)).

(** What a batch function can hand back to its caller: [None], or the
    three mappings with a total. *)
Inductive pyvalue :=
  | PyNone
  | PyMappings (complete incomplete not_downloadable : pkl) (total : nat).

(** The local variables both batch functions share. *)
Record mappings := Mappings {
  number_of_pdb_ids : nat;
  complete : pydict;
  incomplete : pydict;
  not_downloadable : pydict
}.

(** [{k: [] for k in data.keys()}]; the keys of a dictionary are distinct. *)
Fixpoint empty_lists (keys : list string) : M pydict :=
  match keys with
  | [] => ret []
  | k :: keys' =>
      let* l := new_list in
      let* d := empty_lists keys' in
      ret ((k, l) :: d)
  end.

(** The three [save_pkl] calls of one checkpoint. *)
Definition save_all (c i n : pydict) : M unit :=
  save_pkl COMPLETE_IDs_FILE c ;;
  save_pkl INCOMPLETE_IDs_FILE i ;;
  save_pkl NOT_DOWNLOADABLE_IDs_FILE n.

(** [{k: v for k, v in d.items() if v}] *)
Definition nonempty_items (d : pydict) : M pydict :=
  λ w, (Ok (filter (λ kl, objs w !!! kl.2 ≠ []) d), w).

(** [[(pdb_id, k) for k, v in data.items() for pdb_id in v]] *)
Fixpoint submitted (data : pydict) : M (list (string * string)) :=
  match data with
  | [] => ret []
  | (k, v) :: data' =>
      let* ids := list_read v in
      let* rest := submitted data' in
      ret (((λ pdb_id, (pdb_id, k)) <$> ids) ++ rest)
  end.

(** A task handed to the executor: the worker catches what the task raises,
    [BaseException] included, and keeps it in the future of the task;
    [concurrent.futures.wait] does not raise it again, and the script never
    asks a future for its result. *)
Definition run_future (task : M unit) : M unit :=
  λ w, (Ok tt, (task w).2).

Section Batch.

Variable download_pdb : string → string → download_result.

Definition call_download_pdb (dir file : string) : M bool :=
  match download_pdb dir file with
  | Returned truthy => ret truthy
  | Raised => raise DownloadException
  | RaisedBase => raise DownloadBaseException
  end.

(** The tail of both batch functions: pruning, the final checkpoint, the
    optional summary. *)
Definition finish (s : mappings) (verbose : bool) : M pyvalue :=
  let* complete' := nonempty_items (complete s) in
  let* incomplete' := nonempty_items (incomplete s) in
  let* not_downloadable' := nonempty_items (not_downloadable s) in
  save_all complete' incomplete' not_downloadable' ;;
  (if verbose
   then verbose_analysis complete' incomplete' not_downloadable'
                         (number_of_pdb_ids s)
   else ret tt) ;;
  print AnalysisDone ;;
  ret PyNone.

(** *** Sequential mode *)

(** One turn of the inner loop; the result is the new [count]. *)
Definition classify_one (c i n : pydict) (k pdb_id : string) (count : nat)
    : M nat :=
  let count := S count in
  let* fell_through :=
    try_except
      (let* result :=
         call_download_pdb COMPLETE_PDB_FILES (pdb_id ++ ".pdb")%string in
       (if result : bool
        then let* l := getitem c k in list_append l pdb_id
        else let* l := getitem i k in list_append l pdb_id) ;;
       ret true)
      (let* l := getitem n k in
       list_append l pdb_id ;;
       ret false) in
  (if fell_through : bool
   then if decide (count mod 10 = 0) then save_all c i n else ret tt
   else ret tt) ;;
  ret count.

Definition classify_loop (c i n : pydict) (data : pydict) : M nat :=
  for_each data
    (λ kv count,
       let* v := list_read kv.2 in
       for_each v (classify_one c i n kv.1) count)
    0.

(** Up to the end of the loops: the mappings before pruning, and [count]. *)
Definition classify_phase (data : pydict) : M (mappings * nat) :=
  let* number_of_pdb_ids := sum_len data in
  let* complete := empty_lists data.*1 in
  let* incomplete := empty_lists data.*1 in
  let* not_downloadable := empty_lists data.*1 in
  let* count := classify_loop complete incomplete not_downloadable data in
  ret (Mappings number_of_pdb_ids complete incomplete not_downloadable, count).

Definition classify_pdb_batch (data : pydict) (verbose : bool) : M pyvalue :=
  let* sc := classify_phase data in
  finish sc.1 verbose.

(** *** Concurrent mode

    Every task makes one call of [download_pdb] and at most one [append],
    and an [append] of CPython is atomic: a run of the pool is the tasks
    taking effect one after the other in some order, which the scheduler
    chooses. *)

Variable completion_order : list (string * string) → list (string * string).

Definition process_pdb (c i n : pydict) (pdb_id k : string) : M unit :=
  try_except
    (let* result :=
       call_download_pdb COMPLETE_PDB_FILES (pdb_id ++ ".pdb")%string in
     if result : bool
     then let* l := getitem c k in list_append l pdb_id
     else let* l := getitem i k in list_append l pdb_id)
    (let* l := getitem n k in list_append l pdb_id).

Definition parallel_phase (data : pydict) : M mappings :=
  let* number_of_pdb_ids := sum_len data in
  let* complete := empty_lists data.*1 in
  let* incomplete := empty_lists data.*1 in
  let* not_downloadable := empty_lists data.*1 in
  let* futures := submitted data in
  for_each (completion_order futures)
    (λ t _, run_future
              (process_pdb complete incomplete not_downloadable t.1 t.2))
    tt ;;
  ret (Mappings number_of_pdb_ids complete incomplete not_downloadable).

Definition parallel_classify_pdb_batch (data : pydict) (verbose : bool)
    : M pyvalue :=
  let* s := parallel_phase data in
  finish s verbose.

End Batch.

(** The scenario of the specification. *)
Definition scenario_download (dir file : string) : download_result :=
  if decide (file = "x1.pdb") then Returned true
  else if decide (file = "x2.pdb") then Returned false
  else Raised.

Definition scenario_world : world := World [["x1"; "x2"]; ["y1"]] [] [].
Definition scenario_data : pydict := [("A", 0); ("B", 1)].

(** The scenario with a capability that is interrupted on [x2]: what it
    raises there does not derive from [Exception]. *)
Definition interrupted_download (dir file : string) : download_result :=
  if decide (file = "x1.pdb") then Returned true
  else if decide (file = "x2.pdb") then RaisedBase
  else Raised.

(** ** Vocabulary of the statements *)

(** The category of an identifier: what the [try] statement of the script
    does with the answer of the capability.  An exception that [except
    Exception] lets through gives the identifier no category. *)
Definition outcome_of (download_pdb : string → string → download_result)
    (pdb_id : string) : option outcome :=
  match download_pdb COMPLETE_PDB_FILES (pdb_id ++ ".pdb")%string with
  | Returned true => Some Complete
  | Returned false => Some Incomplete
  | Raised => Some NotRetrievable
  | RaisedBase => None
  end.

(** The capability raises nothing outside [Exception] on the identifiers of
    the tasks: every one of them gets a category. *)
Definition caught (download_pdb : string → string → download_result)
    (ts : list (string * string)) : Prop :=
  Forall (λ t, is_Some (outcome_of download_pdb t.1)) ts.

Global Instance caught_dec download_pdb ts : Decision (caught download_pdb ts).
Proof. unfold caught. apply _. Defined.

Definition pick {A} (c i n : A) (o : outcome) : A :=
  match o with
  | Complete => c
  | Incomplete => i
  | NotRetrievable => n
  end.

(** The (identifier, group) pairs of a collection, in iteration order. *)
Definition tasks_of (input : pkl) : list (string * string) :=
  input ≫= λ kv, (λ pdb_id, (pdb_id, kv.1)) <$> kv.2.

(** An input dictionary in a store: distinct keys, references to objects
    that exist. *)
Definition valid_input (w : world) (data : pydict) : Prop :=
  NoDup data.*1 ∧ Forall (λ l, l < length (objs w)) data.*2.

(** The list a task appends to. *)
Definition slot (c i n : pydict) (o : outcome) (k : string) : loc :=
  default 0 (dict_get (pick c i n o) k).

(** A sequence of [append]s on a store. *)
Definition appends (aps : list (loc * string)) (h : heap) : heap :=
  foldl (λ h a, alter (λ v, v ++ [a.2]) a.1 h) h aps.

(** The three dictionaries the batch functions build: the keys of the input
    in each, and references to lists of their own, made after the [n0]
    objects the store had and before its [n1]-th. *)
Record layout (n0 n1 : nat) (keys : list string) (c i n : pydict) : Prop := {
  lay_complete : c.*1 = keys;
  lay_incomplete : i.*1 = keys;
  lay_not_downloadable : n.*1 = keys;
  lay_NoDup : NoDup (c.*2 ++ i.*2 ++ n.*2);
  lay_range : Forall (λ l, n0 ≤ l < n1) (c.*2 ++ i.*2 ++ n.*2)
}.

(** Whether the turn that makes the counter [count] reaches line 85. *)
Definition checkpoint_due (o : outcome) (count : nat) : bool :=
  bool_decide (o ≠ NotRetrievable) && bool_decide (count mod 10 = 0).

Definition checkpoint_of (h : heap) (c i n : pydict)
    : list (string * pkl) :=
  [(COMPLETE_IDs_FILE, pickle h c);
   (INCOMPLETE_IDs_FILE, pickle h i);
   (NOT_DOWNLOADABLE_IDs_FILE, pickle h n)].

Section Steps.

Variable download_pdb : string → string → download_result.
Variables c i n : pydict.

(** The world after one turn of the sequential inner loop, on the task
    (identifier, group), when the counter was [count] before it.  A turn in
    which the capability raises outside [Exception] changes nothing. *)
Definition step_world (t : string * string) (count : nat) (w : world)
    : world :=
  match outcome_of download_pdb t.1 with
  | Some o =>
      let h' := alter (λ v, v ++ [t.1]) (slot c i n o t.2) (objs w) in
      World h'
            (disk w ++
             if checkpoint_due o (S count)
             then checkpoint_of h' c i n else [])
            (stdout w)
  | None => w
  end.

Fixpoint run_seq (ts : list (string * string)) (count : nat) (w : world)
    : world :=
  match ts with
  | [] => w
  | t :: ts' => run_seq ts' (S count) (step_world t count w)
  end.

(** The tasks the sequential loops get through: those before the first on
    which the capability raises outside [Exception]. *)
Fixpoint before_abort (ts : list (string * string))
    : list (string * string) :=
  match ts with
  | [] => []
  | t :: ts' =>
      match outcome_of download_pdb t.1 with
      | Some _ => t :: before_abort ts'
      | None => []
      end
  end.

(** The [append]s of a list of tasks; a task without a category makes
    none. *)
Definition appends_of (ts : list (string * string)) : list (loc * string) :=
  omap (λ t, (λ o, (slot c i n o t.2, t.1)) <$> outcome_of download_pdb t.1)
       ts.

(** The files written while the loop runs over [ts]. *)
Fixpoint checkpoint_files (ts : list (string * string)) (count : nat)
    : list string :=
  match ts with
  | [] => []
  | t :: ts' =>
      match outcome_of download_pdb t.1 with
      | Some o =>
          if checkpoint_due o (S count)
          then [COMPLETE_IDs_FILE; INCOMPLETE_IDs_FILE;
                NOT_DOWNLOADABLE_IDs_FILE]
          else []
      | None => []
      end
      ++ checkpoint_files ts' (S count)
  end.

End Steps.

(** What [empty_lists] builds when the store holds [start] objects. *)
Definition fresh_dict (keys : list string) (start : nat) : pydict :=
  zip keys (seq start (length keys)).

(** The world when the loops start: three new empty lists per key. *)
Definition init_world (w : world) (m : nat) : world :=
  World (objs w ++ replicate (m + m + m) []) (disk w) (stdout w).

(** [{k: v for k, v in d.items() if v}], on a store. *)
Definition prune (h : heap) (d : pydict) : pydict :=
  filter (λ kl, h !!! kl.2 ≠ []) d.

Definition total_len (h : heap) (d : pydict) : nat :=
  sum_list ((λ kl, length (h !!! kl.2)) <$> d).

Definition binary64_percentage (a b : nat) : float :=
  (float_of_nat a / float_of_nat b * 100)%float.

(** What [verbose_analysis] prints for three dictionaries on a store. *)
Definition summary_of (h : heap) (c i n : pydict) (total : nat) : summary :=
  Summary total
    (total_len h c) (binary64_percentage (total_len h c) total)
    (total_len h i) (binary64_percentage (total_len h i) total)
    (total_len h n) (binary64_percentage (total_len h n) total).

(** The dictionary of a category, and the sequence it holds for a group
    on a store. *)
Definition mapping_of (s : mappings) (o : outcome) : pydict :=
  pick (complete s) (incomplete s) (not_downloadable s) o.

Definition entry (h : heap) (s : mappings) (o : outcome) (k : string)
    : option (list string) :=
  dict_get (pickle h (mapping_of s o)) k.

(** What holds of the mappings [s] in the world [w'] when every task of the
    input [data] of the world [w] has taken effect. *)
Record classified (download_pdb : string → string → download_result)
    (w : world) (data : pydict) (s : mappings) (w' : world) : Prop := {
  cl_total : number_of_pdb_ids s = total_len (objs w) data;
  cl_keys : ∀ o, (mapping_of s o).*1 = data.*1;
  cl_frame : ∀ l, l < length (objs w) → objs w' !! l = objs w !! l;
  cl_stdout : stdout w' = stdout w;
  cl_entries : ∀ k v o,
    (k, v) ∈ pickle (objs w) data →
    ∃ e, entry (objs w') s o k = Some e ∧
         e ≡ₚ filter (λ x, outcome_of download_pdb x = Some o) v
}.

(** The three sequences of a group hold the identifiers of the group, each
    as often as the group has it, and each in one category only; and the
    mappings have the groups of the input and no other. *)
Definition partitioned (input : pkl) (h' : heap) (s : mappings) : Prop :=
  (∀ o, (pickle h' (mapping_of s o)).*1 = input.*1) ∧
  ∀ k v, (k, v) ∈ input →
    ∃ vc vi vn,
      entry h' s Complete k = Some vc ∧
      entry h' s Incomplete k = Some vi ∧
      entry h' s NotRetrievable k = Some vn ∧
      vc ++ vi ++ vn ≡ₚ v ∧
      ∀ x, x ∈ v →
        (x ∈ vc ∧ ¬ x ∈ vi ∧ ¬ x ∈ vn) ∨
        (¬ x ∈ vc ∧ x ∈ vi ∧ ¬ x ∈ vn) ∨
        (¬ x ∈ vc ∧ ¬ x ∈ vi ∧ x ∈ vn).

(** Every identifier sits in the mapping its answer sends it to. *)
Definition sorted_by_answer
    (download_pdb : string → string → download_result)
    (input : pkl) (h' : heap) (s : mappings) : Prop :=
  ∀ k v x, (k, v) ∈ input → x ∈ v →
    let answer := download_pdb COMPLETE_PDB_FILES (x ++ ".pdb")%string in
    (answer = Raised →
     ∃ e, entry h' s NotRetrievable k = Some e ∧ x ∈ e) ∧
    (answer = Returned true →
     ∃ e, entry h' s Complete k = Some e ∧ x ∈ e) ∧
    (answer = Returned false →
     ∃ e, entry h' s Incomplete k = Some e ∧ x ∈ e).

(** [after] is [before] without the groups whose sequence is empty. *)
Definition pruned (before after : pkl) : Prop :=
  ∀ k v, dict_get after k = Some v ↔ dict_get before k = Some v ∧ v ≠ [].

(** The last three writes of a run that came out of its loops in [w1] with
    the mappings [s] and ended in [w2]. *)
Definition ends_pruned (s : mappings) (w1 w2 : world) : Prop :=
  ∃ pc pi pn,
    disk w2 = disk w1 ++ [(COMPLETE_IDs_FILE, pc);
                          (INCOMPLETE_IDs_FILE, pi);
                          (NOT_DOWNLOADABLE_IDs_FILE, pn)] ∧
    pruned (pickle (objs w1) (complete s)) pc ∧
    pruned (pickle (objs w1) (incomplete s)) pi ∧
    pruned (pickle (objs w1) (not_downloadable s)) pn ∧
    (∀ m, m ∈ [pc; pi; pn] → ∀ k v, (k, v) ∈ m → v ≠ []) ∧
    (∀ k, (∀ o, entry (objs w1) s o k = Some []) →
          ¬ k ∈ pc.*1 ∧ ¬ k ∈ pi.*1 ∧ ¬ k ∈ pn.*1).

(** What a run that came out of its loops in [w1] with the mappings [s]
    does from there, [run] being its result and the world it ends in: it
    writes the pruned mappings to the three files, which are its last
    writes; then, when [verbose] is set, it calls the reporter on the pruned
    mappings and the total that was computed in the world [w] the run
    started in; it prints its closing message and returns [None]. *)
Definition handed_over (w : world) (data : pydict) (s : mappings)
    (verbose : bool) (w1 : world) (run : result pyvalue * world) : Prop :=
  let c' := prune (objs w1) (complete s) in
  let i' := prune (objs w1) (incomplete s) in
  let n' := prune (objs w1) (not_downloadable s) in
  let total := total_len (objs w) data in
  let saved :=
    World (objs w1) (disk w1 ++ checkpoint_of (objs w1) c' i' n')
          (stdout w1) in
  number_of_pdb_ids s = total ∧
  disk run.2 = disk saved ∧
  run = ((if verbose then verbose_analysis c' i' n' total else ret tt) ;;
         print AnalysisDone ;;
         ret PyNone) saved.

(** A group without identifiers. *)
Definition empty_world : world := World [[]] [] [].
Definition empty_data : pydict := [("A", 0)].

(** The (identifier, group) pairs three dictionaries hold on a store. *)
Definition classified_tasks (h : heap) (c i n : pydict)
    : list (string * string) :=
  tasks_of (pickle h c) ++ tasks_of (pickle h i) ++ tasks_of (pickle h n).

(** The rational number a finite binary64 value stands for. *)
Definition exact_value (f : float) : Q :=
  match Prim2SF f with
  | S754_finite s m e =>
      Qmult (if s then (-1)%Q else 1%Q)
            (Qmult (inject_Z (Z.pos m)) (Qpower 2 e))
  | _ => 0%Q
  end.

(** Nine identifiers in one group: the first is complete, the last cannot
    be retrieved, the seven between are incomplete. *)
Definition nine_download (dir file : string) : download_result :=
  if decide (file = "p1.pdb") then Returned true
  else if decide (file = "p9.pdb") then Raised
  else Returned false.

Definition nine_world : world :=
  World [["p1"; "p2"; "p3"; "p4"; "p5"; "p6"; "p7"; "p8"; "p9"]] [] [].
Definition nine_data : pydict := [("A", 0)].

(** The scenario when only [x1] has been classified. *)
Definition partial_world : world :=
  World [["x1"; "x2"]; ["y1"]; ["x1"]; []; []; []; []; []] [] [].

(** Ten identifiers in one group; the capability raises on the tenth. *)
Definition ten_download (dir file : string) : download_result :=
  if decide (file = "p10.pdb") then Raised else Returned true.

Definition ten_world : world :=
  World [["p1"; "p2"; "p3"; "p4"; "p5"; "p6"; "p7"; "p8"; "p9"; "p10"]] [] [].
Definition ten_data : pydict := [("A", 0)].

(** Twenty-five identifiers in two groups, all of them complete. *)
Definition all_complete (dir file : string) : download_result :=
  Returned true.

(** The capability that raises on [a10], the tenth of the twenty-five. *)
Definition tenth_fails (dir file : string) : download_result :=
  if decide (file = "a10.pdb") then Raised else Returned true.

Definition twenty_five_world : world :=
  World [["a1"; "a2"; "a3"; "a4"; "a5"; "a6"; "a7"; "a8"; "a9"; "a10";
          "a11"; "a12"];
         ["b1"; "b2"; "b3"; "b4"; "b5"; "b6"; "b7"; "b8"; "b9"; "b10";
          "b11"; "b12"; "b13"]] [] [].
Definition twenty_five_data : pydict := [("A", 0); ("B", 1)].

(** The checkpoints in a sequence of writes: every checkpoint writes the
    file of the complete identifiers once. *)
Definition checkpoint_writes (d : list (string * pkl)) : nat :=
  length (filter (λ name, name = COMPLETE_IDs_FILE) d.*1).

(** ** Reading the input *)

(** [open(pdb_id_path, "rb")] on a path without a file. *)
Inductive io_error :=
  | FileNotFoundError (path : string).

(** A new list object with the elements [v]. *)
Definition new_list_of (v : list string) : M loc :=
  λ w, (Ok (length (objs w)), World (objs w ++ [v]) (disk w) (stdout w)).

(** [pkl.load(f)]: the dictionary of the file, with lists of its own. *)
Fixpoint load (p : pkl) : M pydict :=
  match p with
  | [] => ret []
  | (k, v) :: p' =>
      let* l := new_list_of v in
      let* d := load p' in
      ret ((k, l) :: d)
  end.

Section Main.

Variable download_pdb : string → string → download_result.
Variable completion_order : list (string * string) → list (string * string).

(** The files [main] finds: what [open] and [pkl.load] give for a path when
    [main] starts, the dictionary the file of that path holds, and none when
    the path has no file.  [main] reads once, before the batch functions
    write anything. *)
Variable read_pkl : string → option pkl.

Definition main (classification_type : string) (verbose : bool)
    (pdb_id_path : string) (w : world)
    : (io_error + result pyvalue) * world :=
  match read_pkl pdb_id_path with
  | None => (inl (FileNotFoundError pdb_id_path), w)
  | Some p =>
      let run :=
        (let* PDB_IDS := load p in
         (if decide (classification_type = "parallel")
          then parallel_classify_pdb_batch download_pdb completion_order
                 PDB_IDS verbose
          else classify_pdb_batch download_pdb PDB_IDS verbose) ;;
         ret PyNone) w in
      (inr run.1, run.2)
  end.

End Main.

(** *** Vocabulary of the further statements *)

(** The groups of an input with, for each, its identifiers of one category,
    in their order. *)
Definition select (download_pdb : string → string → download_result)
    (o : outcome) (input : pkl) : pkl :=
  (λ kv, (kv.1, filter (λ x, outcome_of download_pdb x = Some o) kv.2))
    <$> input.

Definition without_empty (m : pkl) : pkl :=
  filter (λ kv, kv.2 ≠ []) m.

(** The three files of one checkpoint. *)
Definition files_of (pc pi pn : pkl) : list (string * pkl) :=
  [(COMPLETE_IDs_FILE, pc); (INCOMPLETE_IDs_FILE, pi);
   (NOT_DOWNLOADABLE_IDs_FILE, pn)].

Definition output_files : list string :=
  [COMPLETE_IDs_FILE; INCOMPLETE_IDs_FILE; NOT_DOWNLOADABLE_IDs_FILE].

(** The same groups in the same order, each with the same identifiers up to
    their order. *)
Definition same_up_to_order (a b : pkl) : Prop :=
  Forall2 (λ x y, x.1 = y.1 ∧ x.2 ≡ₚ y.2) a b.

(** What the sequential loops have put under every group of [keys] in the
    category [o] when the tasks [done] have been processed. *)
Definition progress (download_pdb : string → string → download_result)
    (o : outcome) (keys : list string) (done : list (string * string))
    : pkl :=
  (λ k, (k, (filter (λ t, outcome_of download_pdb t.1 = Some o ∧ t.2 = k)
                    done).*1)) <$> keys.

(** The writes of the sequential loops over the tasks [ts], when the tasks
    [done] went before them and the counter is [count]: a checkpoint after
    every task that makes the counter a multiple of 10 and on which the
    capability does not raise, with what has been classified so far. *)
Fixpoint loop_writes (download_pdb : string → string → download_result)
    (keys : list string) (done ts : list (string * string)) (count : nat)
    : list (string * pkl) :=
  match ts with
  | [] => []
  | t :: ts' =>
      match outcome_of download_pdb t.1 with
      | Some o =>
          if checkpoint_due o (S count)
          then files_of
                 (progress download_pdb Complete keys (done ++ [t]))
                 (progress download_pdb Incomplete keys (done ++ [t]))
                 (progress download_pdb NotRetrievable keys (done ++ [t]))
          else []
      | None => []
      end
      ++ loop_writes download_pdb keys (done ++ [t]) ts' (S count)
  end.

(** The files of a directory that has the scenario in [pdb_ids.pkl]. *)
Definition scenario_files (path : string) : option pkl :=
  if decide (path = "pdb_ids.pkl")
  then Some [("A", ["x1"; "x2"]); ("B", ["y1"])]
  else None.

(** ** Dictionaries and stores *)

Lemma dict_get_Some_elem {V} (d : list (string * V)) k v :
  dict_get d k = Some v → (k, v) ∈ d.
Proof.
  induction d as [|[k' v'] d IH]; simpl; [done|].
  case_decide; intros ?; simplify_eq; [left | right; auto].
Qed.

Lemma dict_get_None {V} (d : list (string * V)) k :
  dict_get d k = None ↔ k ∉ d.*1.
Proof.
  induction d as [|[k' v'] d IH]; simpl.
  - split; [intros _; apply not_elem_of_nil | done].
  - rewrite not_elem_of_cons. case_decide as Hk.
    + split; [done | intros [Hne _]; by destruct Hne].
    + rewrite IH. split; [by split | tauto].
Qed.

Lemma dict_get_is_Some {V} (d : list (string * V)) k :
  is_Some (dict_get d k) ↔ k ∈ d.*1.
Proof.
  rewrite <-not_eq_None_Some, dict_get_None.
  split; [apply dec_stable | tauto].
Qed.

Lemma elem_dict_get {V} (d : list (string * V)) k v :
  NoDup d.*1 → (k, v) ∈ d → dict_get d k = Some v.
Proof.
  induction d as [|[k' v'] d IH]; simpl; intros Hnd Hin.
  - by apply elem_of_nil in Hin.
  - apply NoDup_cons in Hnd as [Hk Hnd].
    apply elem_of_cons in Hin as [?|Hin]; simplify_eq.
    + by rewrite decide_True.
    + rewrite decide_False; [auto|].
      intros ->. apply Hk, list_elem_of_fmap. by exists (k, v).
Qed.

Lemma dict_get_fmap {V W} (f : V → W) (d : list (string * V)) k :
  dict_get ((λ kv, (kv.1, f kv.2)) <$> d) k = f <$> dict_get d k.
Proof.
  induction d as [|[k' v'] d IH]; simpl; [done|]. by case_decide.
Qed.

Lemma dict_get_pickle h d k :
  dict_get (pickle h d) k = (h !!!.) <$> dict_get d k.
Proof. apply (dict_get_fmap (h !!!.)). Qed.

Lemma pickle_keys h d : (pickle h d).*1 = d.*1.
Proof. unfold pickle. rewrite <-list_fmap_compose. done. Qed.

Lemma dict_get_filter {V} (P : string * V → Prop) `{!∀ x, Decision (P x)}
    (d : list (string * V)) k v :
  NoDup d.*1 →
  dict_get (filter P d) k = Some v ↔ dict_get d k = Some v ∧ P (k, v).
Proof.
  induction d as [|[k' v'] d IH]; simpl; intros Hnd.
  - split; [done | by intros [? _]].
  - apply NoDup_cons in Hnd as [Hk Hnd].
    rewrite filter_cons. case_decide as HP; simpl.
    + case_decide as Hkk; [subst k'|by apply IH].
      split; [intros [= <-]; by split | by intros [? _]].
    + rewrite IH by done. case_decide as Hkk; [subst k'|done].
      split.
      * intros [Hg _]. apply dict_get_Some_elem in Hg. destruct Hk.
        apply list_elem_of_fmap. by exists (k, v).
      * intros [[= <-] HP']. by destruct HP.
Qed.

Lemma appends_cons a aps h :
  appends (a :: aps) h = appends aps (alter (λ v, v ++ [a.2]) a.1 h).
Proof. done. Qed.

Lemma appends_length aps h : length (appends aps h) = length h.
Proof.
  revert h. induction aps as [|a aps IH]; intros h; [done|].
  by rewrite appends_cons, IH, length_alter.
Qed.

Lemma appends_lookup aps h l :
  appends aps h !! l = (λ v, v ++ (filter (λ a, a.1 = l) aps).*2) <$> h !! l.
Proof.
  revert h. induction aps as [|[l' x] aps IH]; intros h.
  - cbn. destruct (h !! l); simpl; [|done]. by rewrite app_nil_r.
  - rewrite appends_cons, IH, filter_cons. cbn [fst snd].
    destruct (decide (l' = l)) as [->|Hne].
    + rewrite list_lookup_alter_eq. destruct (h !! l); simpl; [|done].
      by rewrite <-app_assoc.
    + by rewrite list_lookup_alter_ne.
Qed.

Lemma appends_lookup_total aps h l :
  l < length h →
  appends aps h !!! l = h !!! l ++ (filter (λ a, a.1 = l) aps).*2.
Proof.
  intros Hl. rewrite !list_lookup_total_alt, appends_lookup.
  destruct (lookup_lt_is_Some_2 h l Hl) as [v ->]. done.
Qed.

Lemma appends_frame aps h l :
  Forall (λ a, a.1 ≠ l) aps → appends aps h !! l = h !! l.
Proof.
  intros Hne. rewrite appends_lookup.
  replace (filter (λ a, a.1 = l) aps) with (@nil (loc * string)).
  - destruct (h !! l); simpl; [|done]. by rewrite app_nil_r.
  - symmetry. induction Hne as [|a aps Ha _ IH]; [done|].
    rewrite filter_cons. by rewrite decide_False.
Qed.

(** ** The steps of the script *)

Lemma bind_Ok {A B} (m : M A) (f : A → M B) w a w' :
  m w = (Ok a, w') → bind m f w = f a w'.
Proof. unfold bind. by intros ->. Qed.

Lemma empty_lists_eq keys w :
  empty_lists keys w =
    (Ok (zip keys (seq (length (objs w)) (length keys))),
     World (objs w ++ replicate (length keys) []) (disk w) (stdout w)).
Proof.
  revert w. induction keys as [|k keys IH]; intros w; simpl.
  - unfold ret. rewrite app_nil_r. by destruct w.
  - unfold bind at 1. unfold new_list at 1.
    erewrite bind_Ok by apply IH. unfold ret. simpl.
    rewrite length_app, <-app_assoc. simpl.
    by rewrite Nat.add_1_r.
Qed.

Section StepLemmas.

Variable download_pdb : string → string → download_result.
Variables (n0 n1 : nat) (keys : list string) (c i n : pydict).
Hypothesis Hlay : layout n0 n1 keys c i n.

Lemma slot_Some o k :
  k ∈ keys → dict_get (pick c i n o) k = Some (slot c i n o k).
Proof.
  intros Hk. unfold slot.
  assert (is_Some (dict_get (pick c i n o) k)) as [l ->]; [|done].
  apply dict_get_is_Some. destruct Hlay, o; simpl; congruence.
Qed.

Lemma slot_elem o k : k ∈ keys → (k, slot c i n o k) ∈ pick c i n o.
Proof. intros Hk. by apply dict_get_Some_elem, slot_Some. Qed.

Lemma slot_range o k : k ∈ keys → n0 ≤ slot c i n o k < n1.
Proof.
  intros Hk. pose proof (slot_elem o k Hk) as Hin.
  apply (list_elem_of_fmap_2 snd) in Hin. simpl in Hin.
  destruct Hlay as [_ _ _ _ Hr]. rewrite Forall_forall in Hr. apply Hr.
  rewrite !elem_of_app. destruct o; simpl in Hin; auto.
Qed.

Lemma NoDup_snd_inj {A B} (d : list (A * B)) a a' b :
  NoDup d.*2 → (a, b) ∈ d → (a', b) ∈ d → a = a'.
Proof.
  induction d as [|[a0 b0] d IH]; simpl; intros Hnd H1 H2.
  - by apply elem_of_nil in H1.
  - apply NoDup_cons in Hnd as [Hb Hnd].
    apply elem_of_cons in H1 as [?|H1], H2 as [?|H2]; simplify_eq; auto.
    + destruct Hb. apply list_elem_of_fmap. by exists (a', b0).
    + destruct Hb. apply list_elem_of_fmap. by exists (a, b0).
Qed.

Lemma slot_inj o o' k k' :
  k ∈ keys → k' ∈ keys →
  slot c i n o k = slot c i n o' k' → o = o' ∧ k = k'.
Proof.
  intros Hk Hk' Heq.
  pose proof (slot_elem o k Hk) as H1.
  pose proof (slot_elem o' k' Hk') as H2. rewrite <-Heq in H2.
  destruct Hlay as [_ _ _ Hnd _].
  apply NoDup_app in Hnd as (Hc & Hci & Hnd).
  apply NoDup_app in Hnd as (Hi & Hin & Hn).
  pose proof (list_elem_of_fmap_2 snd _ _ H1) as S1.
  pose proof (list_elem_of_fmap_2 snd _ _ H2) as S2. simpl in S1, S2.
  set (l := slot c i n o k) in *.
  assert (l ∈ c.*2 → l ∈ i.*2 → False) as Dci.
  { intros Ha Hb. apply (Hci l Ha), elem_of_app. by left. }
  assert (l ∈ c.*2 → l ∈ n.*2 → False) as Dcn.
  { intros Ha Hb. apply (Hci l Ha), elem_of_app. by right. }
  assert (l ∈ i.*2 → l ∈ n.*2 → False) as Din by apply Hin.
  destruct o, o'; simpl in *;
    try (exfalso; eauto; fail); (split; [done|]).
  - exact (NoDup_snd_inj c _ _ _ Hc H1 H2).
  - exact (NoDup_snd_inj i _ _ _ Hi H1 H2).
  - exact (NoDup_snd_inj n _ _ _ Hn H1 H2).
Qed.

Lemma getitem_append d k l x w :
  dict_get d k = Some l →
  (let* l := getitem d k in list_append l x) w =
    (Ok tt, World (alter (λ v, v ++ [x]) l (objs w)) (disk w) (stdout w)).
Proof. intros Hd. unfold bind, getitem. by rewrite Hd. Qed.

Lemma save_all_eq c' i' n' w :
  save_all c' i' n' w =
    (Ok tt, World (objs w) (disk w ++ checkpoint_of (objs w) c' i' n')
                  (stdout w)).
Proof.
  unfold save_all, bind, save_pkl, checkpoint_of. simpl.
  by rewrite <-!app_assoc.
Qed.

Lemma classify_one_eq k pdb_id count w :
  k ∈ keys →
  classify_one download_pdb c i n k pdb_id count w =
    match outcome_of download_pdb pdb_id with
    | Some _ =>
        (Ok (S count), step_world download_pdb c i n (pdb_id, k) count w)
    | None => (Raise DownloadBaseException, w)
    end.
Proof.
  intros Hk. unfold classify_one, step_world, outcome_of, call_download_pdb.
  cbn [fst snd].
  unfold checkpoint_due.
  pose proof (slot_Some Complete k Hk) as Hc.
  pose proof (slot_Some Incomplete k Hk) as Hi.
  pose proof (slot_Some NotRetrievable k Hk) as Hn. simpl in Hc, Hi, Hn.
  destruct (download_pdb _ _) as [[|]| |];
    unfold bind, try_except, getitem, ret, raise;
    rewrite ?Hc, ?Hi, ?Hn; simpl;
    try (case_decide; [rewrite bool_decide_eq_true_2 by done
                      |rewrite bool_decide_eq_false_2 by done]; simpl;
         rewrite ?save_all_eq; simpl);
    unfold checkpoint_of; rewrite <-?app_assoc, ?app_nil_r; done.
Qed.

Lemma process_pdb_eq k pdb_id w :
  k ∈ keys →
  run_future (process_pdb download_pdb c i n pdb_id k) w =
    (Ok tt,
     World (appends (appends_of download_pdb c i n [(pdb_id, k)]) (objs w))
           (disk w) (stdout w)).
Proof.
  intros Hk.
  unfold run_future, process_pdb, appends_of, outcome_of, call_download_pdb.
  pose proof (slot_Some Complete k Hk) as Hc.
  pose proof (slot_Some Incomplete k Hk) as Hi.
  pose proof (slot_Some NotRetrievable k Hk) as Hn. simpl in Hc, Hi, Hn.
  destruct w as [h d out]. cbn [omap list_omap fst snd].
  destruct (download_pdb _ _) as [[|]| |];
    unfold bind, try_except, getitem, ret, raise;
    rewrite ?Hc, ?Hi, ?Hn; done.
Qed.

Lemma appends_of_cons t ts :
  appends_of download_pdb c i n (t :: ts) =
    match outcome_of download_pdb t.1 with
    | Some o => (slot c i n o t.2, t.1) :: appends_of download_pdb c i n ts
    | None => appends_of download_pdb c i n ts
    end.
Proof. unfold appends_of. simpl. by destruct (outcome_of _ _). Qed.

Lemma appends_of_app ts1 ts2 :
  appends_of download_pdb c i n (ts1 ++ ts2) =
    appends_of download_pdb c i n ts1 ++ appends_of download_pdb c i n ts2.
Proof.
  induction ts1 as [|t ts1 IH]; [done|].
  rewrite <-app_comm_cons, !appends_of_cons, IH.
  by destruct (outcome_of _ _).
Qed.

Lemma run_seq_app ts1 ts2 count w :
  run_seq download_pdb c i n (ts1 ++ ts2) count w =
    run_seq download_pdb c i n ts2 (count + length ts1)
      (run_seq download_pdb c i n ts1 count w).
Proof.
  revert count w. induction ts1 as [|t ts1 IH]; intros count w; simpl.
  - by rewrite Nat.add_0_r.
  - rewrite IH. by rewrite Nat.add_succ_r.
Qed.

Lemma run_seq_objs ts count w :
  objs (run_seq download_pdb c i n ts count w) =
    appends (appends_of download_pdb c i n ts) (objs w).
Proof.
  revert count w. induction ts as [|t ts IH]; intros count w; [done|].
  cbn [run_seq]. rewrite IH, appends_of_cons. unfold step_world.
  by destruct (outcome_of _ _).
Qed.

Lemma run_seq_stdout ts count w :
  stdout (run_seq download_pdb c i n ts count w) = stdout w.
Proof.
  revert count w. induction ts as [|t ts IH]; intros count w; [done|].
  cbn [run_seq]. rewrite IH. unfold step_world.
  by destruct (outcome_of _ _).
Qed.

Lemma run_seq_files ts count w :
  (disk (run_seq download_pdb c i n ts count w)).*1 =
    (disk w).*1 ++ checkpoint_files download_pdb ts count.
Proof.
  revert count w. induction ts as [|t ts IH]; intros count w.
  - simpl. by rewrite app_nil_r.
  - cbn [run_seq checkpoint_files]. rewrite IH. unfold step_world.
    destruct (outcome_of _ _) as [o|]; [|done].
    simpl. rewrite fmap_app, <-app_assoc.
    by destruct (checkpoint_due _ _).
Qed.

Lemma appends_of_fresh ts l :
  Forall (λ t, t.2 ∈ keys) ts → l < n0 →
  Forall (λ a, a.1 ≠ l) (appends_of download_pdb c i n ts).
Proof.
  intros Hts Hl. induction Hts as [|t ts Ht _ IH]; [constructor|].
  rewrite appends_of_cons. destruct (outcome_of _ _) as [o|]; [|done].
  constructor; [|done]. simpl.
  pose proof (slot_range o t.2 Ht). lia.
Qed.

Lemma run_seq_frame ts count w l :
  Forall (λ t, t.2 ∈ keys) ts → l < n0 →
  objs (run_seq download_pdb c i n ts count w) !! l = objs w !! l.
Proof.
  intros Hts Hl. rewrite run_seq_objs.
  by apply appends_frame, appends_of_fresh.
Qed.

Lemma before_abort_caught ts :
  caught download_pdb ts → before_abort download_pdb ts = ts.
Proof.
  induction 1 as [|t ts [o Ho] _ IH]; [done|].
  simpl. by rewrite Ho, IH.
Qed.

Lemma before_abort_app ts1 ts2 :
  before_abort download_pdb (ts1 ++ ts2) =
    if decide (caught download_pdb ts1)
    then ts1 ++ before_abort download_pdb ts2
    else before_abort download_pdb ts1.
Proof.
  induction ts1 as [|t ts1 IH]; [done|].
  rewrite <-app_comm_cons. cbn [before_abort].
  destruct (outcome_of download_pdb t.1) as [o|] eqn:Ho.
  - rewrite IH. destruct (decide (caught download_pdb ts1)) as [Hc|Hc].
    + rewrite decide_True; [done|]. constructor; [by rewrite Ho|done].
    + rewrite decide_False; [done|].
      intros Hall. by apply Forall_cons in Hall as [_ ?].
  - rewrite decide_False; [done|].
    intros Hall. apply Forall_cons in Hall as [[o Ho'] _]. congruence.
Qed.

Lemma before_abort_Forall (P : string * string → Prop) ts :
  Forall P ts → Forall P (before_abort download_pdb ts).
Proof.
  induction 1 as [|t ts Ht _ IH]; [constructor|].
  simpl. destruct (outcome_of _ _); [by constructor | constructor].
Qed.

Lemma inner_loop_eq k ids count w :
  k ∈ keys →
  let ts := (λ pdb_id, (pdb_id, k)) <$> ids in
  for_each ids (classify_one download_pdb c i n k) count w =
    (if decide (caught download_pdb ts)
     then Ok (count + length ids) else Raise DownloadBaseException,
     run_seq download_pdb c i n (before_abort download_pdb ts) count w).
Proof.
  intros Hk. revert count w.
  induction ids as [|x ids IH]; intros count w.
  - simpl. by rewrite Nat.add_0_r.
  - cbn [for_each fmap list_fmap before_abort fst]. unfold bind at 1.
    rewrite classify_one_eq by done.
    destruct (outcome_of download_pdb x) as [o|] eqn:Ho.
    + rewrite IH. cbn [run_seq length]. rewrite Nat.add_succ_r.
      destruct (decide (caught download_pdb
                          ((λ pdb_id, (pdb_id, k)) <$> ids))) as [Hc|Hc].
      * rewrite decide_True; [done|].
        constructor; [simpl; by rewrite Ho|done].
      * rewrite decide_False; [done|].
        intros Hall. by apply Forall_cons in Hall as [_ ?].
    + rewrite decide_False; [done|].
      intros Hall. apply Forall_cons in Hall as [[o Ho'] _].
      simpl in Ho'. congruence.
Qed.

Lemma tasks_of_cons k v input :
  tasks_of ((k, v) :: input) = ((λ x, (x, k)) <$> v) ++ tasks_of input.
Proof. done. Qed.

Lemma tasks_of_groups input :
  Forall (λ t, t.2 ∈ input.*1) (tasks_of input).
Proof.
  induction input as [|[k v] input IH]; [constructor|].
  rewrite tasks_of_cons. apply Forall_app. split.
  - apply Forall_fmap, Forall_true. intros x. simpl. left.
  - eapply Forall_impl; [exact IH|]. intros t Ht. simpl. by right.
Qed.

Lemma pickle_frame (h h' : list (list string)) (d : list (string * nat)) :
  Forall (λ l, h' !! l = h !! l) d.*2 → pickle h' d = pickle h d.
Proof.
  unfold pickle. induction d as [|[k l] d IH]; intros Hd; [done|].
  apply Forall_cons in Hd as [Hl Hd]. rewrite !fmap_cons, IH by done.
  simpl in *. by rewrite !list_lookup_total_alt, Hl.
Qed.

Lemma classify_loop_from (data : pydict) count w :
  data.*1 ⊆ keys → Forall (λ l, l < n0) data.*2 →
  let ts := tasks_of (pickle (objs w) data) in
  for_each data
    (λ kv count,
       let* v := list_read kv.2 in
       for_each v (classify_one download_pdb c i n kv.1) count)
    count w =
  (if decide (caught download_pdb ts)
   then Ok (count + length ts) else Raise DownloadBaseException,
   run_seq download_pdb c i n (before_abort download_pdb ts) count w).
Proof.
  revert count w. induction data as [|[k l] data IH]; intros count w Hk Hl.
  - simpl. by rewrite Nat.add_0_r.
  - simpl in Hk, Hl. apply Forall_cons in Hl as [Hl Hls].
    assert (k ∈ keys) as Hkk by (apply Hk; left).
    assert (data.*1 ⊆ keys) as Hk' by (intros x Hx; apply Hk; by right).
    cbn [for_each pickle fmap list_fmap fst snd].
    fold (pickle (objs w) data). rewrite tasks_of_cons.
    unfold bind at 1. unfold bind at 1. unfold list_read at 1.
    rewrite inner_loop_eq by done. cbv zeta.
    set (ts := (λ x, (x, k)) <$> objs w !!! l).
    rewrite before_abort_app.
    destruct (decide (caught download_pdb ts)) as [Hc|Hc].
    + rewrite IH by done. cbv zeta.
      rewrite (before_abort_caught ts Hc).
      assert (pickle (objs (run_seq download_pdb c i n ts count w)) data
              = pickle (objs w) data) as ->.
      { apply pickle_frame. eapply Forall_impl; [exact Hls|].
        intros l' Hl'. apply run_seq_frame; [|done].
        subst ts. apply Forall_fmap, Forall_true. by intros x. }
      rewrite run_seq_app, length_app. subst ts. rewrite length_fmap.
      rewrite Nat.add_assoc.
      destruct (decide (caught download_pdb
                          (tasks_of (pickle (objs w) data)))) as [Hc'|Hc'].
      * rewrite decide_True; [done|]. apply Forall_app. by split.
      * rewrite decide_False; [done|].
        intros Hall. by apply Forall_app in Hall as [_ ?].
    + rewrite decide_False; [done|].
      intros Hall. by apply Forall_app in Hall as [? _].
Qed.

Lemma submitted_eq (data : pydict) w :
  submitted data w = (Ok (tasks_of (pickle (objs w) data)), w).
Proof.
  induction data as [|[k l] data IH]; [done|].
  simpl. unfold bind at 1. unfold list_read at 1.
  erewrite bind_Ok by exact IH. done.
Qed.

Lemma futures_eq ts w :
  Forall (λ t, t.2 ∈ keys) ts →
  for_each ts
    (λ t _, run_future (process_pdb download_pdb c i n t.1 t.2)) tt w =
  (Ok tt, World (appends (appends_of download_pdb c i n ts) (objs w))
                (disk w) (stdout w)).
Proof.
  revert w. induction ts as [|t ts IH]; intros w Hts.
  - simpl. by destruct w.
  - apply Forall_cons in Hts as [Ht Hts]. cbn [for_each].
    unfold bind. rewrite process_pdb_eq by done.
    rewrite IH by done. simpl.
    by destruct (outcome_of download_pdb t.1).
Qed.

Lemma appends_of_filter ts o k :
  k ∈ keys → Forall (λ t, t.2 ∈ keys) ts →
  (filter (λ a, a.1 = slot c i n o k) (appends_of download_pdb c i n ts)).*2
  = (filter (λ t, outcome_of download_pdb t.1 = Some o ∧ t.2 = k) ts).*1.
Proof.
  intros Hk Hts. induction Hts as [|t ts Ht _ IH]; [done|].
  rewrite appends_of_cons, (filter_cons _ t).
  destruct (outcome_of download_pdb t.1) as [o'|] eqn:Ho.
  - rewrite filter_cons. cbn [fst snd].
    destruct (decide (slot c i n o' t.2 = slot c i n o k)) as [Heq|Hne].
    + apply slot_inj in Heq as [-> Hk']; [|done..].
      rewrite decide_True by done. rewrite !fmap_cons, IH. done.
    + rewrite decide_False; [done|].
      intros [[= ->] Hk']. apply Hne. by rewrite Hk'.
  - rewrite decide_False; [done|]. by intros [? _].
Qed.

Lemma entry_after (h : list (list string)) ts o k :
  k ∈ keys → Forall (λ t, t.2 ∈ keys) ts →
  n1 ≤ length h → h !!! slot c i n o k = [] →
  dict_get (pickle (appends (appends_of download_pdb c i n ts) h)
                   (pick c i n o)) k
  = Some (filter (λ t, outcome_of download_pdb t.1 = Some o ∧ t.2 = k) ts).*1.
Proof.
  intros Hk Hts Hlen Hempty.
  rewrite dict_get_pickle, slot_Some by done. simpl. f_equal.
  pose proof (slot_range o k Hk).
  rewrite appends_lookup_total by lia.
  by rewrite Hempty, appends_of_filter.
Qed.

End StepLemmas.

Lemma filter_none {A} (Q : A → Prop) `{!∀ x, Decision (Q x)} (l : list A) :
  Forall (λ x, ¬ Q x) l → filter Q l = [].
Proof.
  induction 1 as [|x l Hx _ IH]; [done|].
  by rewrite filter_cons, decide_False.
Qed.

Lemma tasks_of_filter {X} `{!EqDecision X} (f : string → X) (o : X)
    (input : list (string * list string)) k v :
  NoDup input.*1 → (k, v) ∈ input →
  (filter (λ t, f t.1 = o ∧ t.2 = k) (tasks_of input)).*1
  = filter (λ x, f x = o) v.
Proof.
  induction input as [|[k' v'] input IH]; intros Hnd Hin.
  - by apply elem_of_nil in Hin.
  - simpl in Hnd. apply NoDup_cons in Hnd as [Hk' Hnd].
    rewrite tasks_of_cons, filter_app, fmap_app.
    apply elem_of_cons in Hin as [Heq|Hin].
    + injection Heq as <- <-.
      rewrite (filter_none _ (tasks_of input)).
      2:{ eapply Forall_impl; [apply tasks_of_groups|].
          intros t Ht [_ <-]. done. }
      rewrite app_nil_r. clear.
      induction v as [|x v IHv]; [done|].
      rewrite fmap_cons, !filter_cons. cbn [fst snd].
      destruct (decide (f x = o)).
      * rewrite decide_True by done. by rewrite fmap_cons, IHv.
      * rewrite decide_False by tauto. done.
    + assert (k' ≠ k) as Hne.
      { intros ->. apply Hk', list_elem_of_fmap. by exists (k, v). }
      rewrite (filter_none _ (_ <$> v')).
      2:{ apply Forall_fmap, Forall_true. intros x [_ ?]. done. }
      by apply IH.
Qed.

Lemma filter_outcomes_perm (f : string → option outcome) (v : list string) :
  Forall (λ x, is_Some (f x)) v →
  filter (λ x, f x = Some Complete) v
    ++ filter (λ x, f x = Some Incomplete) v
    ++ filter (λ x, f x = Some NotRetrievable) v ≡ₚ v.
Proof.
  induction 1 as [|x v [o Ho] _ IH]; [done|].
  rewrite !filter_cons, Ho. destruct o; simpl.
  - by rewrite IH.
  - rewrite <-Permutation_middle. by rewrite IH.
  - rewrite app_assoc, <-Permutation_middle, <-app_assoc. by rewrite IH.
Qed.

(** ** The three phases of a run *)

Lemma fresh_dict_keys keys start : (fresh_dict keys start).*1 = keys.
Proof. unfold fresh_dict. apply fst_zip. by rewrite length_seq. Qed.

Lemma fresh_dict_locs keys start :
  (fresh_dict keys start).*2 = seq start (length keys).
Proof. unfold fresh_dict. apply snd_zip. by rewrite length_seq. Qed.

Lemma layout_init keys n0 :
  let m := length keys in
  layout n0 (n0 + (m + m + m)) keys
    (fresh_dict keys n0) (fresh_dict keys (n0 + m))
    (fresh_dict keys (n0 + m + m)).
Proof.
  intros m. split; rewrite ?fresh_dict_keys; try done.
  - rewrite !fresh_dict_locs. fold m.
    rewrite <-!seq_app. apply NoDup_seq.
  - rewrite !fresh_dict_locs. fold m.
    rewrite <-!seq_app.
    apply Forall_forall. intros l Hl. apply elem_of_seq in Hl. lia.
Qed.

Lemma init_world_frame w m l :
  l < length (objs w) → objs (init_world w m) !! l = objs w !! l.
Proof. intros Hl. simpl. by rewrite lookup_app_l. Qed.

Lemma init_world_fresh w m l :
  length (objs w) ≤ l < length (objs w) + (m + m + m) →
  objs (init_world w m) !!! l = [].
Proof.
  intros Hl. simpl. rewrite lookup_total_app_r by lia.
  apply list_lookup_total_correct, lookup_replicate_2. lia.
Qed.

Lemma init_world_length w m :
  length (objs (init_world w m)) = length (objs w) + (m + m + m).
Proof. simpl. by rewrite length_app, length_replicate. Qed.

Lemma empty_lists_after (keys : list string) w0 extra w :
  objs w = objs w0 ++ replicate extra [] →
  disk w = disk w0 → stdout w = stdout w0 →
  empty_lists keys w =
    (Ok (fresh_dict keys (length (objs w0) + extra)),
     World (objs w0 ++ replicate (extra + length keys) [])
           (disk w0) (stdout w0)).
Proof.
  intros Ho Hd Hs. rewrite empty_lists_eq, Ho, Hd, Hs.
  by rewrite length_app, length_replicate, replicate_add, <-app_assoc.
Qed.

Lemma pickle_init w m (data : pydict) :
  Forall (λ l, l < length (objs w)) data.*2 →
  pickle (objs (init_world w m)) data = pickle (objs w) data.
Proof.
  intros Hd. apply pickle_frame. eapply Forall_impl; [exact Hd|].
  intros l Hl. by apply init_world_frame.
Qed.

Lemma total_len_tasks h (d : pydict) :
  total_len h d = length (tasks_of (pickle h d)).
Proof.
  unfold total_len. induction d as [|[k l] d IH]; [done|].
  cbn [pickle fmap list_fmap]. fold (pickle h d). rewrite tasks_of_cons.
  rewrite length_app, length_fmap. simpl. by rewrite IH.
Qed.

Section Phases.

Variable download_pdb : string → string → download_result.

Lemma classify_phase_any (data : pydict) w :
  valid_input w data →
  let keys := data.*1 in
  let n0 := length (objs w) in
  let m := length data in
  let c := fresh_dict keys n0 in
  let i := fresh_dict keys (n0 + m) in
  let n := fresh_dict keys (n0 + m + m) in
  let ts := tasks_of (pickle (objs w) data) in
  classify_phase download_pdb data w =
    (if decide (caught download_pdb ts)
     then Ok (Mappings (length ts) c i n, length ts)
     else Raise DownloadBaseException,
     run_seq download_pdb c i n (before_abort download_pdb ts) 0
       (init_world w m)).
Proof.
  intros [Hnd Hval] keys n0 m c i n ts.
  assert (length keys = m) as Hm by apply length_fmap.
  unfold classify_phase.
  unfold bind at 1. unfold sum_len at 1.
  fold (total_len (objs w) data). rewrite total_len_tasks. fold ts.
  erewrite bind_Ok by (apply (empty_lists_after keys w 0);
                       [by rewrite app_nil_r | done | done]).
  erewrite bind_Ok by by apply (empty_lists_after keys w (0 + length keys)).
  erewrite bind_Ok
    by by apply (empty_lists_after keys w (0 + length keys + length keys)).
  rewrite !Hm, !Nat.add_0_r, !Nat.add_0_l, !Nat.add_assoc.
  fold n0 c i n. fold (init_world w m).
  unfold classify_loop.
  pose proof (layout_init keys n0) as Hlay. simpl in Hlay.
  rewrite Hm in Hlay.
  unfold bind.
  rewrite (classify_loop_from download_pdb n0 _ keys c i n Hlay) by done.
  cbv zeta. rewrite pickle_init by done. fold ts.
  by destruct (decide (caught download_pdb ts)).
Qed.

Lemma classify_phase_eq (data : pydict) w :
  valid_input w data →
  caught download_pdb (tasks_of (pickle (objs w) data)) →
  let keys := data.*1 in
  let n0 := length (objs w) in
  let m := length data in
  let c := fresh_dict keys n0 in
  let i := fresh_dict keys (n0 + m) in
  let n := fresh_dict keys (n0 + m + m) in
  let ts := tasks_of (pickle (objs w) data) in
  classify_phase download_pdb data w =
    (Ok (Mappings (length ts) c i n, length ts),
     run_seq download_pdb c i n ts 0 (init_world w m)).
Proof.
  intros Hv Hc keys n0 m c i n ts.
  pose proof (classify_phase_any data w Hv) as Heq. cbv zeta in Heq.
  rewrite Heq, decide_True, before_abort_caught by done. done.
Qed.

Variable completion_order : list (string * string) → list (string * string).
Hypothesis completion_order_perm : ∀ ts, completion_order ts ≡ₚ ts.

Lemma parallel_phase_eq (data : pydict) w :
  valid_input w data →
  let keys := data.*1 in
  let n0 := length (objs w) in
  let m := length data in
  let c := fresh_dict keys n0 in
  let i := fresh_dict keys (n0 + m) in
  let n := fresh_dict keys (n0 + m + m) in
  let ts := tasks_of (pickle (objs w) data) in
  parallel_phase download_pdb completion_order data w =
    (Ok (Mappings (length ts) c i n),
     World (appends (appends_of download_pdb c i n (completion_order ts))
                    (objs (init_world w m)))
           (disk w) (stdout w)).
Proof.
  intros [Hnd Hval] keys n0 m c i n ts.
  assert (length keys = m) as Hm by apply length_fmap.
  unfold parallel_phase.
  unfold bind at 1. unfold sum_len at 1.
  fold (total_len (objs w) data). rewrite total_len_tasks. fold ts.
  erewrite bind_Ok by (apply (empty_lists_after keys w 0);
                       [by rewrite app_nil_r | done | done]).
  erewrite bind_Ok by by apply (empty_lists_after keys w (0 + length keys)).
  erewrite bind_Ok
    by by apply (empty_lists_after keys w (0 + length keys + length keys)).
  rewrite !Hm, !Nat.add_0_r, !Nat.add_0_l, !Nat.add_assoc.
  fold n0 c i n. fold (init_world w m).
  erewrite bind_Ok by apply submitted_eq.
  rewrite pickle_init by done. fold ts.
  pose proof (layout_init keys n0) as Hlay. simpl in Hlay.
  rewrite Hm in Hlay.
  erewrite bind_Ok.
  2:{ apply (futures_eq download_pdb n0 _ keys c i n Hlay).
      rewrite completion_order_perm. subst ts keys.
      rewrite <-(pickle_keys (objs w) data). apply tasks_of_groups. }
  done.
Qed.

Lemma classify_phase_ordered (data : pydict) w :
  valid_input w data →
  caught download_pdb (tasks_of (pickle (objs w) data)) →
  ∃ s w',
    classify_phase download_pdb data w
      = (Ok (s, total_len (objs w) data), w') ∧
    (disk w').*1 =
      (disk w).*1 ++
      checkpoint_files download_pdb (tasks_of (pickle (objs w) data)) 0 ∧
    ∀ k v o,
      (k, v) ∈ pickle (objs w) data →
      entry (objs w') s o k
        = Some (filter (λ x, outcome_of download_pdb x = Some o) v).
Proof.
  intros Hv Hc. pose proof (classify_phase_eq data w Hv Hc) as Heq.
  destruct Hv as [Hnd Hval]. simpl in Heq.
  set (keys := data.*1) in *. set (n0 := length (objs w)) in *.
  set (m := length data) in *.
  set (c := fresh_dict keys n0) in *.
  set (i := fresh_dict keys (n0 + m)) in *.
  set (n := fresh_dict keys (n0 + m + m)) in *.
  set (ts := tasks_of (pickle (objs w) data)) in *.
  assert (length keys = m) as Hm by apply length_fmap.
  pose proof (layout_init keys n0) as Hlay. simpl in Hlay.
  rewrite Hm in Hlay. fold c i n in Hlay.
  eexists _, _. split; [|split].
  - rewrite Heq. by rewrite total_len_tasks.
  - by rewrite run_seq_files.
  - intros k v o Hin. unfold entry, mapping_of. simpl.
    assert (k ∈ keys) as Hk.
    { subst keys. rewrite <-(pickle_keys (objs w) data).
      apply list_elem_of_fmap. by exists (k, v). }
    rewrite run_seq_objs.
    rewrite (entry_after download_pdb n0 _ keys c i n Hlay).
    + f_equal. subst ts.
      apply (tasks_of_filter (outcome_of download_pdb));
        [by rewrite pickle_keys | done].
    + done.
    + subst ts keys. rewrite <-(pickle_keys (objs w) data).
      apply tasks_of_groups.
    + by rewrite init_world_length.
    + apply init_world_fresh.
      apply (slot_range n0 _ keys c i n Hlay o k Hk).
Qed.

Lemma classify_phase_classified (data : pydict) w :
  valid_input w data →
  caught download_pdb (tasks_of (pickle (objs w) data)) →
  ∃ s w',
    classify_phase download_pdb data w
      = (Ok (s, total_len (objs w) data), w') ∧
    classified download_pdb w data s w'.
Proof.
  intros Hv Hc. pose proof (classify_phase_eq data w Hv Hc) as Heq.
  destruct (classify_phase_ordered data w Hv Hc)
    as (s & w' & Hrun & _ & Hent).
  exists s, w'. split; [done|].
  simpl in Heq. rewrite Hrun in Heq. injection Heq as Hs Htot Hw'.
  destruct Hv as [Hnd Hval].
  assert (length data.*1 = length data) as Hm by apply length_fmap.
  pose proof (layout_init data.*1 (length (objs w))) as Hlay. simpl in Hlay.
  rewrite Hm in Hlay.
  split.
  - by rewrite Hs.
  - intros o. rewrite Hs. unfold mapping_of. simpl.
    destruct o; simpl; apply fresh_dict_keys.
  - intros l Hl. rewrite Hw'.
    rewrite (run_seq_frame download_pdb _ _ _ _ _ _ Hlay); [|..|done].
    + by apply init_world_frame.
    + rewrite <-(pickle_keys (objs w) data). apply tasks_of_groups.
  - by rewrite Hw', run_seq_stdout.
  - intros k v o Hin. eexists. split; [by apply Hent|done].
Qed.

Lemma parallel_phase_classified (data : pydict) w :
  valid_input w data →
  ∃ s w',
    parallel_phase download_pdb completion_order data w = (Ok s, w') ∧
    disk w' = disk w ∧
    classified download_pdb w data s w'.
Proof.
  intros Hv. pose proof (parallel_phase_eq data w Hv) as Heq.
  destruct Hv as [Hnd Hval]. simpl in Heq.
  set (keys := data.*1) in *. set (n0 := length (objs w)) in *.
  set (m := length data) in *.
  set (c := fresh_dict keys n0) in *.
  set (i := fresh_dict keys (n0 + m)) in *.
  set (n := fresh_dict keys (n0 + m + m)) in *.
  set (ts := tasks_of (pickle (objs w) data)) in *.
  assert (length keys = m) as Hm by apply length_fmap.
  pose proof (layout_init keys n0) as Hlay. simpl in Hlay.
  rewrite Hm in Hlay. fold c i n in Hlay.
  assert (Forall (λ t, t.2 ∈ keys) (completion_order ts)) as Hgroups.
  { rewrite completion_order_perm. subst ts keys.
    rewrite <-(pickle_keys (objs w) data). apply tasks_of_groups. }
  eexists _, _. split; [exact Heq|]. split; [done|]. split; simpl.
  - by rewrite total_len_tasks.
  - intros o. unfold mapping_of. simpl.
    destruct o; simpl; apply fresh_dict_keys.
  - intros l Hl. rewrite appends_frame.
    + by rewrite lookup_app_l.
    + by apply (appends_of_fresh download_pdb n0 _ keys c i n Hlay).
  - done.
  - intros k v o Hin. unfold entry, mapping_of. simpl.
    assert (k ∈ keys) as Hk.
    { subst keys. rewrite <-(pickle_keys (objs w) data).
      apply list_elem_of_fmap. by exists (k, v). }
    eexists. split.
    + apply (entry_after download_pdb n0 _ keys c i n Hlay); [done..| |].
      * pose proof (init_world_length w m) as Hlen. simpl in Hlen.
        subst n0. lia.
      * apply (init_world_fresh w m).
        apply (slot_range n0 _ keys c i n Hlay o k Hk).
    + rewrite completion_order_perm. subst ts.
      rewrite (tasks_of_filter (outcome_of download_pdb) (Some o) _ k v);
        [done | by rewrite pickle_keys | done].
Qed.

End Phases.

Lemma percentage_eq a b w :
  percentage a b w =
    if decide (b = 0) then (Raise ZeroDivisionError, w)
    else (Ok (binary64_percentage a b), w).
Proof. unfold percentage. by case_decide. Qed.

Lemma verbose_analysis_eq c i n total w :
  verbose_analysis c i n total w =
    if decide (total = 0) then (Raise ZeroDivisionError, w)
    else (Ok tt, World (objs w) (disk w)
                       (stdout w ++
                        [AnalysisSummary (summary_of (objs w) c i n total)])).
Proof.
  unfold verbose_analysis, bind, sum_len.
  destruct (decide (total = 0)) as [Hz|Hz].
  - rewrite percentage_eq. by rewrite decide_True.
  - rewrite !percentage_eq. rewrite !decide_False by done.
    rewrite percentage_eq. rewrite !decide_False by done.
    rewrite percentage_eq. rewrite !decide_False by done.
    done.
Qed.

Lemma finish_eq s verbose w :
  let h := objs w in
  let c' := prune h (complete s) in
  let i' := prune h (incomplete s) in
  let n' := prune h (not_downloadable s) in
  let saved := disk w ++ checkpoint_of h c' i' n' in
  finish s verbose w =
    if verbose && bool_decide (number_of_pdb_ids s = 0)
    then (Raise ZeroDivisionError, World h saved (stdout w))
    else (Ok PyNone,
          World h saved
                (stdout w ++
                 (if verbose
                  then [AnalysisSummary
                          (summary_of h c' i' n' (number_of_pdb_ids s))]
                  else []) ++
                 [AnalysisDone])).
Proof.
  intros h c' i' n' saved. unfold finish.
  unfold bind at 1. unfold nonempty_items at 1. fold (prune h (complete s)).
  unfold bind at 1. unfold nonempty_items at 1. fold (prune h (incomplete s)).
  unfold bind at 1. unfold nonempty_items at 1.
  fold (prune h (not_downloadable s)). fold h c' i' n'.
  erewrite bind_Ok by apply save_all_eq. fold h saved.
  destruct verbose; simpl.
  - unfold bind at 1. rewrite verbose_analysis_eq. simpl.
    case_decide as Hz.
    + by rewrite bool_decide_eq_true_2.
    + rewrite bool_decide_eq_false_2 by done.
      unfold bind, print, ret. simpl. by rewrite <-app_assoc.
  - unfold bind, print, ret. done.
Qed.

(** ** Properties of the batch runs *)

Lemma tasks_of_Forall (P : string → Prop)
    (input : list (string * list string)) :
  Forall (λ t, P t.1) (tasks_of input) ↔ Forall (λ kv, Forall P kv.2) input.
Proof.
  induction input as [|[k v] input IH]; [done|].
  rewrite tasks_of_cons, Forall_app, Forall_cons, IH, Forall_fmap. done.
Qed.

Lemma caught_group download_pdb (input : list (string * list string)) k v :
  caught download_pdb (tasks_of input) → (k, v) ∈ input →
  Forall (λ x, is_Some (outcome_of download_pdb x)) v.
Proof.
  intros Hc Hin. unfold caught in Hc.
  rewrite (tasks_of_Forall (λ x, is_Some (outcome_of download_pdb x))) in Hc.
  rewrite Forall_forall in Hc. exact (Hc (k, v) Hin).
Qed.

Lemma caught_spec download_pdb (ts : list (string * string)) :
  caught download_pdb ts ↔
  Forall (λ t, download_pdb COMPLETE_PDB_FILES (t.1 ++ ".pdb")%string
               ≠ RaisedBase) ts.
Proof.
  unfold caught. apply Forall_proper; [|done]. intros t.
  unfold outcome_of.
  destruct (download_pdb _ _) as [[|]| |]; split; done.
Qed.

Lemma caught_no_tasks download_pdb (h : list (list string))
    (data : list (string * nat)) :
  total_len h data = 0 → caught download_pdb (tasks_of (pickle h data)).
Proof.
  rewrite total_len_tasks. intros Hz.
  apply length_zero_iff_nil in Hz. rewrite Hz. constructor.
Qed.

Lemma classified_partitioned download_pdb w data s w' :
  caught download_pdb (tasks_of (pickle (objs w) data)) →
  classified download_pdb w data s w' →
  partitioned (pickle (objs w) data) (objs w') s.
Proof.
  intros Hcaught [_ Hkeys _ _ Hent]. split.
  - intros o. by rewrite !pickle_keys.
  - intros k v Hin.
    pose proof (caught_group _ _ _ _ Hcaught Hin) as Hv.
    destruct (Hent k v Complete Hin) as (vc & Hc & Pc).
    destruct (Hent k v Incomplete Hin) as (vi & Hi & Pi).
    destruct (Hent k v NotRetrievable Hin) as (vn & Hn & Pn).
    exists vc, vi, vn. repeat split; try done.
    + rewrite Pc, Pi, Pn. by apply filter_outcomes_perm.
    + intros x Hx.
      assert (∀ o e,
                e ≡ₚ filter (λ x, outcome_of download_pdb x = Some o) v →
                x ∈ e ↔ outcome_of download_pdb x = Some o) as Hmem.
      { intros o e ->. rewrite list_elem_of_filter. tauto. }
      rewrite (Hmem _ _ Pc), (Hmem _ _ Pi), (Hmem _ _ Pn).
      rewrite Forall_forall in Hv. destruct (Hv x Hx) as [o ->].
      destruct o; [left | right; left | right; right]; done.
Qed.

Lemma classified_sorted download_pdb w data s w' :
  classified download_pdb w data s w' →
  sorted_by_answer download_pdb (pickle (objs w) data) (objs w') s.
Proof.
  intros [_ _ _ _ Hent] k v x Hin Hx answer.
  assert (∀ o, outcome_of download_pdb x = Some o →
               ∃ e, entry (objs w') s o k = Some e ∧ x ∈ e) as Hmem.
  { intros o Ho. destruct (Hent k v o Hin) as (e & He & Pe).
    exists e. split; [done|]. rewrite Pe. by apply list_elem_of_filter. }
  unfold outcome_of in Hmem. fold answer in Hmem.
  repeat split; intros Ha; apply Hmem; by rewrite Ha.
Qed.

(** C1, as the script has it: when the capability raises nothing outside
    [Exception] on the identifiers of the input, then after all identifiers
    are processed and before pruning, in the sequential and in the
    concurrent mode, the three sequences of every group together hold
    exactly the identifiers of the group, none lost and none twice, every
    identifier in one category only, and the mappings have no other
    group. *)
Theorem identifiers_partitioned
    (download_pdb : string → string → download_result)
    (completion_order : list (string * string) → list (string * string))
    (data : pydict) (w : world) :
  valid_input w data →
  caught download_pdb (tasks_of (pickle (objs w) data)) →
  (∀ ts, completion_order ts ≡ₚ ts) →
  (∃ s count w',
     classify_phase download_pdb data w = (Ok (s, count), w') ∧
     partitioned (pickle (objs w) data) (objs w') s) ∧
  (∃ s w',
     parallel_phase download_pdb completion_order data w = (Ok s, w') ∧
     partitioned (pickle (objs w) data) (objs w') s).
Proof.
  intros Hv Hc Hperm. split.
  - destruct (classify_phase_classified download_pdb data w Hv Hc)
      as (s & w' & Hrun & Hcl).
    eexists s, _, w'. split; [done|]. by eapply classified_partitioned.
  - destruct (parallel_phase_classified download_pdb completion_order
                Hperm data w Hv) as (s & w' & Hrun & _ & Hcl).
    exists s, w'. split; [done|]. by eapply classified_partitioned.
Qed.

Lemma identifiers_partitioned_witness :
  valid_input scenario_world scenario_data ∧
  caught scenario_download
    (tasks_of (pickle (objs scenario_world) scenario_data)) ∧
  ((∃ s count w',
      classify_phase scenario_download scenario_data scenario_world
        = (Ok (s, count), w') ∧
      partitioned (pickle (objs scenario_world) scenario_data) (objs w') s) ∧
   (∃ s w',
      parallel_phase scenario_download reverse scenario_data scenario_world
        = (Ok s, w') ∧
      partitioned (pickle (objs scenario_world) scenario_data) (objs w') s)).
Proof.
  assert (valid_input scenario_world scenario_data) as Hv
    by (split; compute_done).
  assert (caught scenario_download
            (tasks_of (pickle (objs scenario_world) scenario_data))) as Hc
    by compute_done.
  split; [exact Hv|]. split; [exact Hc|].
  apply (identifiers_partitioned scenario_download reverse
           scenario_data scenario_world Hv Hc).
  intros ts. apply reverse_Permutation.
Defined.

(** C1, as claimed, fails for a capability that raises outside [Exception]:
    on the scenario with such an exception on [x2] the sequential loops do
    not come to their end, they stop with the exception; the concurrent
    loops do, and [x2] is then in none of the three sequences of its group,
    which together are not the identifiers of the group. *)
Lemma interrupted_identifier_lost :
  valid_input scenario_world scenario_data ∧
  (classify_phase interrupted_download scenario_data scenario_world).1
    = Raise DownloadBaseException ∧
  ∃ s w',
    parallel_phase interrupted_download reverse scenario_data scenario_world
      = (Ok s, w') ∧
    entry (objs w') s Complete "A" = Some ["x1"] ∧
    entry (objs w') s Incomplete "A" = Some [] ∧
    entry (objs w') s NotRetrievable "A" = Some [] ∧
    ¬ partitioned (pickle (objs scenario_world) scenario_data) (objs w') s.
Proof.
  split; [split; compute_done|]. split; [vm_compute; reflexivity|].
  eexists _, _. split; [vm_compute; reflexivity|].
  do 3 (split; [vm_compute; reflexivity|]).
  intros [_ Hgroups].
  destruct (Hgroups "A" ["x1"; "x2"] ltac:(left))
    as (vc & vi & vn & Hc & Hi & Hn & Hperm & _).
  vm_compute in Hc, Hi, Hn.
  injection Hc as <-. injection Hi as <-. injection Hn as <-.
  apply Permutation_length in Hperm. discriminate Hperm.
Qed.

Lemma classify_pdb_batch_eq download_pdb data verbose w s count w1 :
  classify_phase download_pdb data w = (Ok (s, count), w1) →
  classify_pdb_batch download_pdb data verbose w = finish s verbose w1.
Proof.
  intros H. unfold classify_pdb_batch. erewrite bind_Ok by exact H. done.
Qed.

Lemma parallel_classify_pdb_batch_eq download_pdb order data verbose w s w1 :
  parallel_phase download_pdb order data w = (Ok s, w1) →
  parallel_classify_pdb_batch download_pdb order data verbose w
    = finish s verbose w1.
Proof.
  intros H. unfold parallel_classify_pdb_batch.
  erewrite bind_Ok by exact H. done.
Qed.

Lemma finish_result s verbose w :
  (finish s verbose w).1 =
    if verbose && bool_decide (number_of_pdb_ids s = 0)
    then Raise ZeroDivisionError else Ok PyNone.
Proof. rewrite finish_eq. by destruct (_ && _). Qed.

Lemma run_endings
    (download_pdb : string → string → download_result)
    (completion_order : list (string * string) → list (string * string))
    (data : list (string * nat)) (w : world) (verbose : bool) :
  valid_input w data →
  caught download_pdb (tasks_of (pickle (objs w) data)) →
  (∀ ts, completion_order ts ≡ₚ ts) →
  let ending :=
    if verbose && bool_decide (total_len (objs w) data = 0)
    then Raise ZeroDivisionError else Ok PyNone in
  (classify_pdb_batch download_pdb data verbose w).1 = ending ∧
  (parallel_classify_pdb_batch download_pdb completion_order data verbose w).1
    = ending.
Proof.
  intros Hv Hc Hperm ending.
  destruct (classify_phase_classified download_pdb data w Hv Hc)
    as (s & w' & Hrun & Hcl).
  destruct (parallel_phase_classified download_pdb completion_order
              Hperm data w Hv) as (s2 & w2 & Hrun2 & _ & Hcl2).
  split.
  - erewrite classify_pdb_batch_eq by exact Hrun.
    by rewrite finish_result, (cl_total _ _ _ _ _ Hcl).
  - erewrite parallel_classify_pdb_batch_eq by exact Hrun2.
    by rewrite finish_result, (cl_total _ _ _ _ _ Hcl2).
Qed.

(** C2, as the script has it: when what the capability raises derives from
    [Exception], whatever else it does with an identifier, the loops of both
    modes come to their end with a result; the identifier is in the
    not_downloadable sequence of its group when the capability raised, in
    the complete one when its answer was truthy, in the incomplete one when
    it was falsy; and a whole run ends with [None], or with the division by
    zero of the reporter, never with the exception of the capability. *)
Theorem failures_contained
    (download_pdb : string → string → download_result)
    (completion_order : list (string * string) → list (string * string))
    (data : pydict) (w : world) (verbose : bool) :
  valid_input w data →
  caught download_pdb (tasks_of (pickle (objs w) data)) →
  (∀ ts, completion_order ts ≡ₚ ts) →
  let ending :=
    if verbose && bool_decide (total_len (objs w) data = 0)
    then Raise ZeroDivisionError else Ok PyNone in
  (∃ s count w',
     classify_phase download_pdb data w = (Ok (s, count), w') ∧
     sorted_by_answer download_pdb (pickle (objs w) data) (objs w') s) ∧
  (classify_pdb_batch download_pdb data verbose w).1 = ending ∧
  (∃ s w',
     parallel_phase download_pdb completion_order data w = (Ok s, w') ∧
     sorted_by_answer download_pdb (pickle (objs w) data) (objs w') s) ∧
  (parallel_classify_pdb_batch download_pdb completion_order data verbose w).1
    = ending.
Proof.
  intros Hv Hc Hperm ending.
  destruct (classify_phase_classified download_pdb data w Hv Hc)
    as (s & w' & Hrun & Hcl).
  destruct (parallel_phase_classified download_pdb completion_order
              Hperm data w Hv) as (s2 & w2 & Hrun2 & _ & Hcl2).
  repeat split.
  - eexists s, _, w'. split; [done|]. by eapply classified_sorted.
  - erewrite classify_pdb_batch_eq by done.
    by rewrite finish_result, (cl_total _ _ _ _ _ Hcl).
  - exists s2, w2. split; [done|]. by eapply classified_sorted.
  - erewrite parallel_classify_pdb_batch_eq by done.
    by rewrite finish_result, (cl_total _ _ _ _ _ Hcl2).
Qed.

Lemma failures_contained_witness :
  valid_input scenario_world scenario_data ∧
  caught scenario_download
    (tasks_of (pickle (objs scenario_world) scenario_data)) ∧
  scenario_download COMPLETE_PDB_FILES "y1.pdb" = Raised ∧
  let ending :=
    if true && bool_decide
                 (total_len (objs scenario_world) scenario_data = 0)
    then Raise ZeroDivisionError else Ok PyNone in
  (∃ s count w',
     classify_phase scenario_download scenario_data scenario_world
       = (Ok (s, count), w') ∧
     sorted_by_answer scenario_download
       (pickle (objs scenario_world) scenario_data) (objs w') s) ∧
  (classify_pdb_batch scenario_download scenario_data true
     scenario_world).1 = ending ∧
  (∃ s w',
     parallel_phase scenario_download reverse scenario_data scenario_world
       = (Ok s, w') ∧
     sorted_by_answer scenario_download
       (pickle (objs scenario_world) scenario_data) (objs w') s) ∧
  (parallel_classify_pdb_batch scenario_download reverse scenario_data true
     scenario_world).1 = ending.
Proof.
  assert (valid_input scenario_world scenario_data) as Hv
    by (split; compute_done).
  assert (caught scenario_download
            (tasks_of (pickle (objs scenario_world) scenario_data))) as Hc
    by compute_done.
  split; [exact Hv|]. split; [exact Hc|]. split; [reflexivity|].
  apply (failures_contained scenario_download reverse
           scenario_data scenario_world true Hv Hc).
  intros ts. apply reverse_Permutation.
Defined.

(** C2, as claimed, fails for an exception that does not derive from
    [Exception]: on the scenario with such an exception on [x2] the
    sequential run ends with the exception of the capability, when it has
    classified [x1] only; [y1] is never looked at and no file is written.
    The concurrent loops come to their end and classify [y1], and [x2] is
    not in the not_downloadable sequence of its group. *)
Lemma interruption_not_contained :
  let seq :=
    classify_pdb_batch interrupted_download scenario_data false
      scenario_world in
  let par :=
    parallel_phase interrupted_download reverse scenario_data
      scenario_world in
  valid_input scenario_world scenario_data ∧
  interrupted_download COMPLETE_PDB_FILES "x2.pdb" = RaisedBase ∧
  seq.1 = Raise DownloadBaseException ∧
  objs seq.2 = objs partial_world ∧
  disk seq.2 = [] ∧
  stdout seq.2 = [] ∧
  ∃ s,
    par.1 = Ok s ∧
    entry (objs par.2) s NotRetrievable "A" = Some [] ∧
    entry (objs par.2) s NotRetrievable "B" = Some ["y1"].
Proof.
  split; [split; compute_done|].
  do 5 (split; [vm_compute; reflexivity|]).
  eexists. split; [vm_compute; reflexivity|].
  split; vm_compute; reflexivity.
Qed.

Lemma pickle_prune (h : list (list string)) (d : list (string * nat)) :
  pickle h (prune h d) = filter (λ kv, kv.2 ≠ []) (pickle h d).
Proof.
  unfold pickle, prune. induction d as [|[k l] d IH]; [done|].
  rewrite fmap_cons, !filter_cons. cbn [fst snd].
  destruct (decide (h !!! l ≠ [])); by rewrite ?fmap_cons, IH.
Qed.

Lemma filter_nonempty_pruned (before : list (string * list string)) :
  NoDup before.*1 → pruned before (filter (λ kv, kv.2 ≠ []) before).
Proof. intros Hnd k v. by apply (dict_get_filter (λ kv, kv.2 ≠ [])). Qed.

Lemma pruned_absent (before after : list (string * list string)) k :
  pruned before after → dict_get before k = Some [] → k ∉ after.*1.
Proof.
  intros Hp Hb. apply dict_get_None.
  destruct (dict_get after k) as [v|] eqn:Ha; [|done].
  apply Hp in Ha as [Hv Hne]. congruence.
Qed.

Lemma finish_world s verbose w :
  objs (finish s verbose w).2 = objs w ∧
  disk (finish s verbose w).2 =
    disk w ++
    checkpoint_of (objs w) (prune (objs w) (complete s))
      (prune (objs w) (incomplete s)) (prune (objs w) (not_downloadable s)).
Proof. rewrite finish_eq. by destruct (_ && _). Qed.

Lemma finish_ends_pruned s verbose w :
  (∀ o, NoDup (mapping_of s o).*1) →
  ends_pruned s w (finish s verbose w).2.
Proof.
  intros Hnd. destruct (finish_world s verbose w) as [_ Hdisk].
  pose proof (Hnd Complete) as Hc. pose proof (Hnd Incomplete) as Hi.
  pose proof (Hnd NotRetrievable) as Hn.
  unfold mapping_of in Hc, Hi, Hn. simpl in Hc, Hi, Hn.
  rewrite <-(pickle_keys (objs w)) in Hc, Hi, Hn.
  apply filter_nonempty_pruned in Hc, Hi, Hn.
  eexists _, _, _. split; [exact Hdisk|].
  rewrite !pickle_prune.
  split; [exact Hc|]. split; [exact Hi|]. split; [exact Hn|]. split.
  - intros m Hm k v Hkv.
    rewrite !elem_of_cons, elem_of_nil in Hm.
    destruct Hm as [->|[->|[->|[]]]];
      by apply list_elem_of_filter in Hkv as [? _].
  - intros k Hall. repeat split.
    + eapply pruned_absent; [exact Hc|]. apply (Hall Complete).
    + eapply pruned_absent; [exact Hi|]. apply (Hall Incomplete).
    + eapply pruned_absent; [exact Hn|]. apply (Hall NotRetrievable).
Qed.

Lemma pruned_lookup (before after : list (string * list string)) k e :
  pruned before after → dict_get before k = Some e →
  dict_get after k = if decide (e = []) then None else Some e.
Proof.
  intros Hp Hb. case_decide as He.
  - destruct (dict_get after k) as [v|] eqn:Ha; [|done].
    apply Hp in Ha as [Hv Hne]. congruence.
  - by apply Hp.
Qed.

(** C5: in the sequential mode, for a capability that raises nothing outside
    [Exception] on the identifiers of the input, the sequence of a group in
    the mapping of a category is the sequence the group has in the input
    with only the identifiers of that category kept, in their input order:
    so it is when the loops end, and so it is in the mappings of the last
    checkpoint, where the group is absent when no identifier of it is
    kept. *)
Theorem sequential_order_preserved
    (download_pdb : string → string → download_result)
    (data : pydict) (w : world) (verbose : bool) :
  valid_input w data →
  caught download_pdb (tasks_of (pickle (objs w) data)) →
  ∃ s count w1 pc pi pn,
    classify_phase download_pdb data w = (Ok (s, count), w1) ∧
    disk (classify_pdb_batch download_pdb data verbose w).2 =
      disk w1 ++ [(COMPLETE_IDs_FILE, pc);
                  (INCOMPLETE_IDs_FILE, pi);
                  (NOT_DOWNLOADABLE_IDs_FILE, pn)] ∧
    ∀ k v o,
      (k, v) ∈ pickle (objs w) data →
      let kept := filter (λ x, outcome_of download_pdb x = Some o) v in
      entry (objs w1) s o k = Some kept ∧
      dict_get (pick pc pi pn o) k
        = if decide (kept = []) then None else Some kept.
Proof.
  intros Hv Hcaught.
  destruct (classify_phase_ordered download_pdb data w Hv Hcaught)
    as (s & w1 & Hrun & _ & Hent).
  destruct (classify_phase_classified download_pdb data w Hv Hcaught)
    as (s' & w1' & Hrun' & Hcl).
  rewrite Hrun in Hrun'. injection Hrun' as <- <-.
  destruct (finish_ends_pruned s verbose w1)
    as (pc & pi & pn & Hdisk & Hc & Hi & Hn & _).
  { intros o. rewrite (cl_keys _ _ _ _ _ Hcl). apply Hv. }
  exists s, (total_len (objs w) data), w1, pc, pi, pn.
  split; [exact Hrun|]. split.
  - by erewrite classify_pdb_batch_eq by exact Hrun.
  - intros k v o Hin kept. pose proof (Hent k v o Hin) as He.
    split; [exact He|]. unfold entry, mapping_of in He.
    destruct o; simpl in *; by eapply pruned_lookup.
Qed.

Lemma sequential_order_preserved_witness :
  valid_input scenario_world scenario_data ∧
  caught scenario_download
    (tasks_of (pickle (objs scenario_world) scenario_data)) ∧
  ∃ s count w1 pc pi pn,
    classify_phase scenario_download scenario_data scenario_world
      = (Ok (s, count), w1) ∧
    disk (classify_pdb_batch scenario_download scenario_data true
            scenario_world).2 =
      disk w1 ++ [(COMPLETE_IDs_FILE, pc);
                  (INCOMPLETE_IDs_FILE, pi);
                  (NOT_DOWNLOADABLE_IDs_FILE, pn)] ∧
    ∀ k v o,
      (k, v) ∈ pickle (objs scenario_world) scenario_data →
      let kept := filter (λ x, outcome_of scenario_download x = Some o) v in
      entry (objs w1) s o k = Some kept ∧
      dict_get (pick pc pi pn o) k
        = if decide (kept = []) then None else Some kept.
Proof.
  assert (valid_input scenario_world scenario_data) as Hv
    by (split; compute_done).
  assert (caught scenario_download
            (tasks_of (pickle (objs scenario_world) scenario_data))) as Hc
    by compute_done.
  split; [exact Hv|]. split; [exact Hc|].
  exact (sequential_order_preserved scenario_download
           scenario_data scenario_world true Hv Hc).
Defined.

(** C6: when a run of either mode has ended, for a capability that raises
    nothing outside [Exception] on the identifiers of the input, each of the
    three mappings of its last checkpoint, which are the pruned mappings the
    function then holds, is the mapping the loops left without its empty
    groups: no group maps to an empty sequence, a group whose sequence is
    empty is absent, and a group with no entry in any category is in none of
    the three. *)
Theorem final_mappings_pruned
    (download_pdb : string → string → download_result)
    (completion_order : list (string * string) → list (string * string))
    (data : pydict) (w : world) (verbose : bool) :
  valid_input w data →
  caught download_pdb (tasks_of (pickle (objs w) data)) →
  (∀ ts, completion_order ts ≡ₚ ts) →
  (∃ s count w1,
     classify_phase download_pdb data w = (Ok (s, count), w1) ∧
     ends_pruned s w1
       (classify_pdb_batch download_pdb data verbose w).2) ∧
  (∃ s w1,
     parallel_phase download_pdb completion_order data w = (Ok s, w1) ∧
     ends_pruned s w1
       (parallel_classify_pdb_batch download_pdb completion_order
          data verbose w).2).
Proof.
  intros Hv Hc Hperm.
  destruct (classify_phase_classified download_pdb data w Hv Hc)
    as (s & w' & Hrun & Hcl).
  destruct (parallel_phase_classified download_pdb completion_order
              Hperm data w Hv) as (s2 & w2 & Hrun2 & _ & Hcl2).
  destruct Hv as [Hnd _]. split.
  - eexists s, _, w'. split; [done|].
    erewrite classify_pdb_batch_eq by exact Hrun.
    apply finish_ends_pruned. intros o.
    by rewrite (cl_keys _ _ _ _ _ Hcl).
  - exists s2, w2. split; [done|].
    erewrite parallel_classify_pdb_batch_eq by exact Hrun2.
    apply finish_ends_pruned. intros o.
    by rewrite (cl_keys _ _ _ _ _ Hcl2).
Qed.

Lemma final_mappings_pruned_witness :
  valid_input scenario_world scenario_data ∧
  caught scenario_download
    (tasks_of (pickle (objs scenario_world) scenario_data)) ∧
  ((∃ s count w1,
      classify_phase scenario_download scenario_data scenario_world
        = (Ok (s, count), w1) ∧
      ends_pruned s w1
        (classify_pdb_batch scenario_download scenario_data true
           scenario_world).2) ∧
   (∃ s w1,
      parallel_phase scenario_download reverse scenario_data scenario_world
        = (Ok s, w1) ∧
      ends_pruned s w1
        (parallel_classify_pdb_batch scenario_download reverse
           scenario_data true scenario_world).2)).
Proof.
  assert (valid_input scenario_world scenario_data) as Hv
    by (split; compute_done).
  assert (caught scenario_download
            (tasks_of (pickle (objs scenario_world) scenario_data))) as Hc
    by compute_done.
  split; [exact Hv|]. split; [exact Hc|].
  apply (final_mappings_pruned scenario_download reverse
           scenario_data scenario_world true Hv Hc).
  intros ts. apply reverse_Permutation.
Defined.

Lemma classify_pdb_batch_frame download_pdb (data : list (string * nat))
    w verbose :
  valid_input w data →
  ∀ l, l < length (objs w) →
       objs (classify_pdb_batch download_pdb data verbose w).2 !! l
       = objs w !! l.
Proof.
  intros Hv l Hl.
  pose proof (classify_phase_any download_pdb data w Hv) as Heq.
  cbv zeta in Heq. unfold classify_pdb_batch, bind. rewrite Heq.
  assert (length data.*1 = length data) as Hm by apply length_fmap.
  pose proof (layout_init data.*1 (length (objs w))) as Hlay. simpl in Hlay.
  rewrite Hm in Hlay.
  match goal with
  | |- context [run_seq ?dl ?c ?i ?n ?ts 0 ?w0] =>
      assert (objs (run_seq dl c i n ts 0 w0) !! l = objs w !! l) as Hframe
  end.
  { rewrite (run_seq_frame download_pdb _ _ _ _ _ _ Hlay); [|..|done].
    - by apply init_world_frame.
    - apply before_abort_Forall.
      rewrite <-(pickle_keys (objs w) data). apply tasks_of_groups. }
  destruct (decide (caught download_pdb _)); [|done].
  cbn [fst]. by rewrite (proj1 (finish_world _ _ _)).
Qed.

Lemma parallel_classify_pdb_batch_frame download_pdb
    (completion_order : list (string * string) → list (string * string))
    (data : list (string * nat)) w verbose :
  valid_input w data →
  (∀ ts, completion_order ts ≡ₚ ts) →
  ∀ l, l < length (objs w) →
       objs (parallel_classify_pdb_batch download_pdb completion_order
               data verbose w).2 !! l
       = objs w !! l.
Proof.
  intros Hv Hperm l Hl.
  destruct (parallel_phase_classified download_pdb completion_order
              Hperm data w Hv) as (s & w1 & Hrun & _ & Hcl).
  erewrite parallel_classify_pdb_batch_eq by exact Hrun.
  destruct (finish_world s verbose w1) as [-> _].
  by apply (cl_frame _ _ _ _ _ Hcl).
Qed.

(** C10: a run of either mode, however it ends, whatever the capability
    answers or raises, leaves every object the store had before it as it
    was; the input dictionary still binds the same keys to the same
    sequences, in the same order. *)
Theorem input_not_mutated
    (download_pdb : string → string → download_result)
    (completion_order : list (string * string) → list (string * string))
    (data : pydict) (w : world) (verbose : bool) :
  valid_input w data →
  (∀ ts, completion_order ts ≡ₚ ts) →
  let w_seq := (classify_pdb_batch download_pdb data verbose w).2 in
  let w_par :=
    (parallel_classify_pdb_batch download_pdb completion_order
       data verbose w).2 in
  (∀ l, l < length (objs w) → objs w_seq !! l = objs w !! l) ∧
  pickle (objs w_seq) data = pickle (objs w) data ∧
  (∀ l, l < length (objs w) → objs w_par !! l = objs w !! l) ∧
  pickle (objs w_par) data = pickle (objs w) data.
Proof.
  intros Hv Hperm w_seq w_par.
  pose proof (classify_pdb_batch_frame download_pdb data w verbose Hv)
    as Hseq.
  pose proof (parallel_classify_pdb_batch_frame download_pdb
                completion_order data w verbose Hv Hperm) as Hpar.
  fold w_seq in Hseq. fold w_par in Hpar.
  destruct Hv as [_ Hval].
  repeat split; try done.
  - apply pickle_frame. eapply Forall_impl; [exact Hval|]. apply Hseq.
  - apply pickle_frame. eapply Forall_impl; [exact Hval|]. apply Hpar.
Qed.

Lemma input_not_mutated_witness :
  valid_input scenario_world scenario_data ∧
  let w_seq :=
    (classify_pdb_batch scenario_download scenario_data true
       scenario_world).2 in
  let w_par :=
    (parallel_classify_pdb_batch scenario_download reverse
       scenario_data true scenario_world).2 in
  (∀ l, l < length (objs scenario_world) →
        objs w_seq !! l = objs scenario_world !! l) ∧
  pickle (objs w_seq) scenario_data
    = pickle (objs scenario_world) scenario_data ∧
  (∀ l, l < length (objs scenario_world) →
        objs w_par !! l = objs scenario_world !! l) ∧
  pickle (objs w_par) scenario_data
    = pickle (objs scenario_world) scenario_data.
Proof.
  assert (valid_input scenario_world scenario_data) as Hv
    by (split; compute_done).
  split; [exact Hv|].
  apply (input_not_mutated scenario_download reverse
           scenario_data scenario_world true Hv).
  intros ts. apply reverse_Permutation.
Defined.

(** C9: on an input without any identifier a verbose run of either mode
    ends with the [ZeroDivisionError] of the reporter instead of [None]; the
    reporter comes to its end exactly when the total it is given is not
    zero. *)
Theorem summary_needs_nonzero_total
    (download_pdb : string → string → download_result)
    (completion_order : list (string * string) → list (string * string))
    (data : pydict) (w : world) :
  valid_input w data →
  (∀ ts, completion_order ts ≡ₚ ts) →
  total_len (objs w) data = 0 →
  (classify_pdb_batch download_pdb data true w).1
    = Raise ZeroDivisionError ∧
  (parallel_classify_pdb_batch download_pdb completion_order data true w).1
    = Raise ZeroDivisionError ∧
  ∀ c i n total w0,
    (∃ w', verbose_analysis c i n total w0 = (Ok tt, w')) ↔ total ≠ 0.
Proof.
  intros Hv Hperm Hzero.
  destruct (run_endings download_pdb completion_order data w true Hv
              (caught_no_tasks download_pdb _ _ Hzero) Hperm)
    as [Hseq Hpar].
  rewrite Hseq, Hpar, Hzero. repeat split; try done.
  - intros [w' Hrun] ->. rewrite verbose_analysis_eq in Hrun. done.
  - intros Hne. rewrite verbose_analysis_eq, decide_False by done. eauto.
Qed.

Lemma summary_needs_nonzero_total_witness :
  valid_input empty_world empty_data ∧
  total_len (objs empty_world) empty_data = 0 ∧
  (classify_pdb_batch scenario_download empty_data true empty_world).1
    = Raise ZeroDivisionError.
Proof.
  assert (valid_input empty_world empty_data) as Hv
    by (split; compute_done).
  split; [exact Hv|]. split; [reflexivity|].
  apply (summary_needs_nonzero_total scenario_download reverse
           empty_data empty_world Hv).
  - intros ts. apply reverse_Permutation.
  - reflexivity.
Defined.

Lemma finish_handed_over w data s verbose w1 :
  number_of_pdb_ids s = total_len (objs w) data →
  handed_over w data s verbose w1 (finish s verbose w1).
Proof.
  intros Htot. split; [done|]. split; [apply finish_world|].
  unfold finish.
  unfold bind at 1. unfold nonempty_items at 1.
  fold (prune (objs w1) (complete s)).
  unfold bind at 1. unfold nonempty_items at 1.
  fold (prune (objs w1) (incomplete s)).
  unfold bind at 1. unfold nonempty_items at 1.
  fold (prune (objs w1) (not_downloadable s)).
  erewrite bind_Ok by apply save_all_eq. by rewrite Htot.
Qed.

(** C4, as the script has it: when the capability raises nothing outside
    [Exception] on the identifiers of the input, both batch functions
    return [None], or end with the division by zero of the reporter in a
    verbose run on an input without identifiers; the three pruned mappings
    are what the last checkpoint writes and, in a verbose run, what the
    reporter is called with, together with the total of the input, the sum
    of the group sizes computed before any identifier is processed. *)
Theorem batch_returns_none
    (download_pdb : string → string → download_result)
    (completion_order : list (string * string) → list (string * string))
    (data : pydict) (w : world) (verbose : bool) :
  valid_input w data →
  caught download_pdb (tasks_of (pickle (objs w) data)) →
  (∀ ts, completion_order ts ≡ₚ ts) →
  let ending :=
    if verbose && bool_decide (total_len (objs w) data = 0)
    then Raise ZeroDivisionError else Ok PyNone in
  let seq := classify_pdb_batch download_pdb data verbose w in
  let par :=
    parallel_classify_pdb_batch download_pdb completion_order
      data verbose w in
  seq.1 = ending ∧
  par.1 = ending ∧
  (∃ s count w1,
     classify_phase download_pdb data w = (Ok (s, count), w1) ∧
     handed_over w data s verbose w1 seq) ∧
  (∃ s w1,
     parallel_phase download_pdb completion_order data w = (Ok s, w1) ∧
     handed_over w data s verbose w1 par).
Proof.
  intros Hv Hc Hperm ending seq par.
  destruct (run_endings download_pdb completion_order data w verbose
              Hv Hc Hperm) as [Eseq Epar].
  destruct (classify_phase_classified download_pdb data w Hv Hc)
    as (s & w' & Hrun & Hcl).
  destruct (parallel_phase_classified download_pdb completion_order
              Hperm data w Hv) as (s2 & w2 & Hrun2 & _ & Hcl2).
  split; [exact Eseq|]. split; [exact Epar|]. split.
  - eexists s, _, w'. split; [exact Hrun|]. subst seq.
    erewrite classify_pdb_batch_eq by exact Hrun.
    apply finish_handed_over, (cl_total _ _ _ _ _ Hcl).
  - exists s2, w2. split; [exact Hrun2|]. subst par.
    erewrite parallel_classify_pdb_batch_eq by exact Hrun2.
    apply finish_handed_over, (cl_total _ _ _ _ _ Hcl2).
Qed.

Lemma batch_returns_none_witness :
  valid_input scenario_world scenario_data ∧
  caught scenario_download
    (tasks_of (pickle (objs scenario_world) scenario_data)) ∧
  let seq :=
    classify_pdb_batch scenario_download scenario_data true
      scenario_world in
  let par :=
    parallel_classify_pdb_batch scenario_download reverse
      scenario_data true scenario_world in
  seq.1 = Ok PyNone ∧
  par.1 = Ok PyNone ∧
  (∃ s count w1,
     classify_phase scenario_download scenario_data scenario_world
       = (Ok (s, count), w1) ∧
     handed_over scenario_world scenario_data s true w1 seq) ∧
  (∃ s w1,
     parallel_phase scenario_download reverse scenario_data scenario_world
       = (Ok s, w1) ∧
     handed_over scenario_world scenario_data s true w1 par).
Proof.
  assert (valid_input scenario_world scenario_data) as Hv
    by (split; compute_done).
  assert (caught scenario_download
            (tasks_of (pickle (objs scenario_world) scenario_data))) as Hc
    by compute_done.
  split; [exact Hv|]. split; [exact Hc|].
  apply (batch_returns_none scenario_download reverse
           scenario_data scenario_world true Hv Hc).
  intros ts. apply reverse_Permutation.
Defined.

(** C4, as claimed, fails on the scenario of the specification: neither
    function returns the mappings and the total. *)
Lemma batch_does_not_return_mappings :
  (¬ ∃ c i n total w',
       classify_pdb_batch scenario_download scenario_data false
         scenario_world = (Ok (PyMappings c i n total), w')) ∧
  (¬ ∃ c i n total w',
       parallel_classify_pdb_batch scenario_download reverse scenario_data
         false scenario_world = (Ok (PyMappings c i n total), w')).
Proof.
  split; intros (c & i & n & total & w' & Hrun);
    vm_compute in Hrun; discriminate Hrun.
Qed.

(** ** The counts of the summary *)

Lemma total_len_prune (h : list (list string)) (d : list (string * nat)) :
  total_len h (prune h d) = total_len h d.
Proof.
  unfold total_len, prune. induction d as [|[k l] d IH]; [done|].
  rewrite filter_cons. cbn [fst snd].
  destruct (decide (h !!! l ≠ [])) as [Hne|He]; rewrite !fmap_cons; simpl.
  - by rewrite IH.
  - apply dec_stable in He. rewrite He, IH. done.
Qed.

Lemma total_len_pickle (h : list (list string)) (d : list (string * nat)) :
  total_len h d = sum_list ((λ kv, length kv.2) <$> pickle h d).
Proof.
  unfold total_len, pickle. by rewrite <-list_fmap_compose.
Qed.

Lemma total_len_by_keys (h : list (list string)) (d : list (string * nat)) :
  NoDup d.*1 →
  total_len h d =
    sum_list ((λ k, length (default [] (dict_get (pickle h d) k))) <$> d.*1).
Proof.
  unfold total_len. induction d as [|[k l] d IH]; intros Hnd; [done|].
  simpl in Hnd. apply NoDup_cons in Hnd as [Hk Hnd].
  rewrite !fmap_cons. cbn [fst snd sum_list_with sum_list].
  cbn [pickle fmap list_fmap dict_get fst snd]. fold (pickle h d).
  rewrite decide_True by done. simpl. f_equal.
  rewrite IH by done. f_equal. apply Forall_fmap_ext_1.
  apply Forall_forall. intros k' Hk'.
  rewrite decide_False; [done|]. by intros ->.
Qed.

Lemma sum_list_pointwise {A} (a b c g : A → nat) (l : list A) :
  Forall (λ x, a x + b x + c x = g x) l →
  sum_list (a <$> l) + sum_list (b <$> l) + sum_list (c <$> l)
  = sum_list (g <$> l).
Proof.
  induction 1 as [|x l Hx _ IH]; [done|].
  rewrite !fmap_cons. simpl. lia.
Qed.

Lemma classified_counts download_pdb w data s w' :
  NoDup data.*1 →
  caught download_pdb (tasks_of (pickle (objs w) data)) →
  classified download_pdb w data s w' →
  total_len (objs w') (complete s) + total_len (objs w') (incomplete s)
    + total_len (objs w') (not_downloadable s)
  = total_len (objs w) data.
Proof.
  intros Hnd Hcaught [_ Hkeys _ _ Hent].
  pose proof (Hkeys Complete) as Kc. pose proof (Hkeys Incomplete) as Ki.
  pose proof (Hkeys NotRetrievable) as Kn.
  unfold mapping_of in Kc, Ki, Kn. simpl in Kc, Ki, Kn.
  rewrite (total_len_by_keys _ (complete s)) by by rewrite Kc.
  rewrite (total_len_by_keys _ (incomplete s)) by by rewrite Ki.
  rewrite (total_len_by_keys _ (not_downloadable s)) by by rewrite Kn.
  rewrite (total_len_by_keys _ data), Kc, Ki, Kn by done.
  apply sum_list_pointwise, Forall_forall. intros k Hk.
  rewrite <-(pickle_keys (objs w) data) in Hk.
  apply list_elem_of_fmap in Hk as ([k' v] & -> & Hin). simpl.
  rewrite (elem_dict_get _ _ _ ltac:(by rewrite pickle_keys) Hin).
  destruct (Hent k' v Complete Hin) as (vc & Hc & Pc).
  destruct (Hent k' v Incomplete Hin) as (vi & Hi & Pi).
  destruct (Hent k' v NotRetrievable Hin) as (vn & Hn & Pn).
  unfold entry, mapping_of in Hc, Hi, Hn. simpl in Hc, Hi, Hn.
  rewrite Hc, Hi, Hn. simpl.
  rewrite <-(Permutation_length
               (filter_outcomes_perm (outcome_of download_pdb) v
                  (caught_group _ _ _ _ Hcaught Hin))).
  rewrite !length_app, Pc, Pi, Pn. lia.
Qed.

Lemma classified_tasks_length (h : list (list string))
    (c i n : list (string * nat)) :
  length (classified_tasks h c i n)
  = total_len h c + total_len h i + total_len h n.
Proof.
  unfold classified_tasks. rewrite !length_app, !total_len_tasks. lia.
Qed.

Lemma finish_reports s w1 total :
  number_of_pdb_ids s = total → total ≠ 0 →
  ∃ w2,
    finish s true w1 = (Ok PyNone, w2) ∧
    stdout w2 =
      stdout w1 ++
      [AnalysisSummary
         (summary_of (objs w1) (prune (objs w1) (complete s))
            (prune (objs w1) (incomplete s))
            (prune (objs w1) (not_downloadable s)) total);
       AnalysisDone].
Proof.
  intros Htot Hne. rewrite finish_eq. simpl.
  rewrite Htot, bool_decide_eq_false_2 by done. eexists. split; done.
Qed.

(** C7, as the script has it: the reporter gives for each category the sum
    of the lengths of its sequences and the binary64 value of that count
    divided by the total and multiplied by 100; the three counts add up to at
    most the total when the mappings hold identifiers of the input only, and
    to the total exactly when they hold all of them.  In a verbose run, for
    a capability that raises nothing outside [Exception] on the identifiers
    of the input, the total is the sum of the group sizes of the input,
    taken before the loops, and the counts add up to it. *)
Theorem summary_counts
    (download_pdb : string → string → download_result)
    (completion_order : list (string * string) → list (string * string))
    (data : pydict) (w : world) :
  valid_input w data →
  caught download_pdb (tasks_of (pickle (objs w) data)) →
  (∀ ts, completion_order ts ≡ₚ ts) →
  total_len (objs w) data ≠ 0 →
  (∀ (c i n : pydict) (w0 : world),
     classified_tasks (objs w0) c i n ⊆+ tasks_of (pickle (objs w) data) →
     let total := total_len (objs w) data in
     let r := summary_of (objs w0) c i n total in
     verbose_analysis c i n total w0
       = (Ok tt, World (objs w0) (disk w0)
                       (stdout w0 ++ [AnalysisSummary r])) ∧
     sum_total_complete r
       = sum_list ((λ kv, length kv.2) <$> pickle (objs w0) c) ∧
     sum_total_incomplete r
       = sum_list ((λ kv, length kv.2) <$> pickle (objs w0) i) ∧
     sum_total_not_downloadable r
       = sum_list ((λ kv, length kv.2) <$> pickle (objs w0) n) ∧
     sum_complete_percentage r
       = (float_of_nat (sum_total_complete r) / float_of_nat total
          * 100)%float ∧
     sum_incomplete_percentage r
       = (float_of_nat (sum_total_incomplete r) / float_of_nat total
          * 100)%float ∧
     sum_not_downloadable_percentage r
       = (float_of_nat (sum_total_not_downloadable r) / float_of_nat total
          * 100)%float ∧
     sum_total_complete r + sum_total_incomplete r
       + sum_total_not_downloadable r ≤ total ∧
     (sum_total_complete r + sum_total_incomplete r
        + sum_total_not_downloadable r = total ↔
      classified_tasks (objs w0) c i n
        ≡ₚ tasks_of (pickle (objs w) data))) ∧
  (∃ r w2,
     classify_pdb_batch download_pdb data true w = (Ok PyNone, w2) ∧
     stdout w2 = stdout w ++ [AnalysisSummary r; AnalysisDone] ∧
     sum_number_of_pdb_ids r = total_len (objs w) data ∧
     sum_total_complete r + sum_total_incomplete r
       + sum_total_not_downloadable r = total_len (objs w) data) ∧
  (∃ r w2,
     parallel_classify_pdb_batch download_pdb completion_order data true w
       = (Ok PyNone, w2) ∧
     stdout w2 = stdout w ++ [AnalysisSummary r; AnalysisDone] ∧
     sum_number_of_pdb_ids r = total_len (objs w) data ∧
     sum_total_complete r + sum_total_incomplete r
       + sum_total_not_downloadable r = total_len (objs w) data).
Proof.
  intros Hv Hc Hperm Hne. split; [|split].
  - intros c i n w0 Hsub total r.
    rewrite verbose_analysis_eq, decide_False by done.
    split; [done|]. rewrite <-!total_len_pickle.
    do 6 (split; [done|]). simpl.
    rewrite <-classified_tasks_length. subst total.
    rewrite total_len_tasks. split.
    + by apply submseteq_length.
    + split.
      * intros Heq. apply submseteq_length_Permutation; [done|]. lia.
      * apply Permutation_length.
  - destruct (classify_phase_classified download_pdb data w Hv Hc)
      as (s & w1 & Hrun & Hcl).
    destruct (finish_reports s w1 _ (cl_total _ _ _ _ _ Hcl) Hne)
      as (w2 & Hfin & Hout).
    eexists _, w2. split; [|split; [|split]].
    + erewrite classify_pdb_batch_eq by exact Hrun. exact Hfin.
    + rewrite Hout, (cl_stdout _ _ _ _ _ Hcl). done.
    + done.
    + simpl. rewrite !total_len_prune.
      eapply classified_counts; [apply Hv | exact Hc | exact Hcl].
  - destruct (parallel_phase_classified download_pdb completion_order
                Hperm data w Hv) as (s & w1 & Hrun & _ & Hcl).
    destruct (finish_reports s w1 _ (cl_total _ _ _ _ _ Hcl) Hne)
      as (w2 & Hfin & Hout).
    eexists _, w2. split; [|split; [|split]].
    + erewrite parallel_classify_pdb_batch_eq by exact Hrun. exact Hfin.
    + rewrite Hout, (cl_stdout _ _ _ _ _ Hcl). done.
    + done.
    + simpl. rewrite !total_len_prune.
      eapply classified_counts; [apply Hv | exact Hc | exact Hcl].
Qed.

Lemma summary_counts_witness :
  valid_input scenario_world scenario_data ∧
  caught scenario_download
    (tasks_of (pickle (objs scenario_world) scenario_data)) ∧
  total_len (objs scenario_world) scenario_data ≠ 0 ∧
  classified_tasks (objs partial_world)
      [("A", 2); ("B", 3)] [("A", 4); ("B", 5)] [("A", 6); ("B", 7)]
    ⊆+ tasks_of (pickle (objs scenario_world) scenario_data) ∧
  total_len (objs partial_world) [("A", 2); ("B", 3)]
    + total_len (objs partial_world) [("A", 4); ("B", 5)]
    + total_len (objs partial_world) [("A", 6); ("B", 7)]
    ≤ total_len (objs scenario_world) scenario_data ∧
  ∃ r w2,
    classify_pdb_batch scenario_download scenario_data true scenario_world
      = (Ok PyNone, w2) ∧
    stdout w2 = stdout scenario_world ++ [AnalysisSummary r; AnalysisDone] ∧
    sum_number_of_pdb_ids r
      = total_len (objs scenario_world) scenario_data ∧
    sum_total_complete r + sum_total_incomplete r
      + sum_total_not_downloadable r
      = total_len (objs scenario_world) scenario_data.
Proof.
  assert (valid_input scenario_world scenario_data) as Hv
    by (split; compute_done).
  assert (total_len (objs scenario_world) scenario_data ≠ 0) as Hne
    by (vm_compute; lia).
  assert (classified_tasks (objs partial_world)
            [("A", 2); ("B", 3)] [("A", 4); ("B", 5)] [("A", 6); ("B", 7)]
          ⊆+ tasks_of (pickle (objs scenario_world) scenario_data)) as Hsub
    by (vm_compute; apply submseteq_skip, submseteq_nil_l).
  assert (∀ ts : list (string * string), reverse ts ≡ₚ ts) as Hperm
    by (intros ts; apply reverse_Permutation).
  assert (caught scenario_download
            (tasks_of (pickle (objs scenario_world) scenario_data))) as Hc
    by compute_done.
  destruct (summary_counts scenario_download reverse scenario_data
              scenario_world Hv Hc Hperm Hne) as (Hrep & Hseq & _).
  destruct (Hrep _ _ _ partial_world Hsub)
    as (_ & _ & _ & _ & _ & _ & _ & Hle & _).
  split; [exact Hv|]. split; [exact Hc|]. split; [exact Hne|].
  split; [exact Hsub|].
  split; [exact Hle|]. exact Hseq.
Defined.

(** C7, as claimed, fails on nine identifiers that are all classified, one
    complete, seven incomplete and one not retrievable: the three
    percentages of the report add up to more than 100, in binary64 and as
    exact numbers. *)
Lemma percentages_exceed_100 :
  let run := classify_pdb_batch nine_download nine_data true nine_world in
  let pc := binary64_percentage 1 9 in
  let pi := binary64_percentage 7 9 in
  let pn := binary64_percentage 1 9 in
  run.1 = Ok PyNone ∧
  stdout run.2 = [AnalysisSummary (Summary 9 1 pc 7 pi 1 pn); AnalysisDone] ∧
  (pc + pi + pn <=? 100)%float = false ∧
  Qlt 100 (Qplus (exact_value pc) (Qplus (exact_value pi) (exact_value pn))).
Proof. repeat split; vm_compute; reflexivity. Qed.

(** ** Checkpoints of the sequential mode *)

(** C3 on the code: when the capability raises on the tenth identifier the
    counter reaches 10 and no checkpoint is written, while the same input
    with a tenth identifier that is retrieved gets its checkpoint. *)
Lemma tenth_failure_skips_checkpoint :
  let failing := classify_phase ten_download ten_data ten_world in
  let passing := classify_phase all_complete ten_data ten_world in
  (∃ s, failing.1 = Ok (s, 10)) ∧
  (∃ s, passing.1 = Ok (s, 10)) ∧
  outcome_of ten_download "p10" = Some NotRetrievable ∧
  disk failing.2 = [] ∧
  (disk passing.2).*1 =
    [COMPLETE_IDs_FILE; INCOMPLETE_IDs_FILE; NOT_DOWNLOADABLE_IDs_FILE].
Proof.
  repeat split; try (vm_compute; reflexivity);
    eexists; vm_compute; reflexivity.
Qed.

(** C8 on the code: on 25 identifiers, when the capability raises on the
    tenth, the loops write one checkpoint only, the one after the twentieth
    identifier, and the run writes two in all with the final one; the same
    input with a tenth identifier that is retrieved gets two from the loops,
    three in all. *)
Lemma tenth_failure_two_writes :
  let loops := classify_phase tenth_fails twenty_five_data twenty_five_world in
  let run :=
    classify_pdb_batch tenth_fails twenty_five_data false
      twenty_five_world in
  let passing_loops :=
    classify_phase all_complete twenty_five_data twenty_five_world in
  let passing :=
    classify_pdb_batch all_complete twenty_five_data false
      twenty_five_world in
  total_len (objs twenty_five_world) twenty_five_data = 25 ∧
  tasks_of (pickle (objs twenty_five_world) twenty_five_data) !! 9
    = Some ("a10", "A") ∧
  outcome_of tenth_fails "a10" = Some NotRetrievable ∧
  (∃ s, loops.1 = Ok (s, 25)) ∧
  run.1 = Ok PyNone ∧
  disk loops.2 =
    files_of
      [("A", ["a1"; "a2"; "a3"; "a4"; "a5"; "a6"; "a7"; "a8"; "a9";
              "a11"; "a12"]);
       ("B", ["b1"; "b2"; "b3"; "b4"; "b5"; "b6"; "b7"; "b8"])]
      [("A", []); ("B", [])]
      [("A", ["a10"]); ("B", [])] ∧
  checkpoint_writes (disk loops.2) = 1 ∧
  checkpoint_writes (disk run.2) = 2 ∧
  checkpoint_writes (disk passing_loops.2) = 2 ∧
  checkpoint_writes (disk passing.2) = 3.
Proof.
  repeat split; try (vm_compute; reflexivity).
  eexists. vm_compute. reflexivity.
Qed.

(** ** The files a run leaves *)

Lemma assoc_list_eq {V} (a b : list (string * V)) :
  a.*1 = b.*1 → NoDup a.*1 →
  (∀ k, k ∈ a.*1 → dict_get a k = dict_get b k) →
  a = b.
Proof.
  revert b. induction a as [|[k v] a IH]; intros [|[k' v'] b] Hkeys Hnd Hget;
    try done.
  simpl in Hkeys. injection Hkeys as <- Hkeys.
  apply NoDup_cons in Hnd as [Hk Hnd].
  pose proof (Hget k ltac:(left)) as Hhead. simpl in Hhead.
  rewrite !decide_True in Hhead by done. injection Hhead as <-.
  f_equal. apply IH; [done..|].
  intros k0 Hk0. specialize (Hget k0 ltac:(by right)). simpl in Hget.
  rewrite !decide_False in Hget; [done|by intros ->..].
Qed.

Lemma select_keys download_pdb o (input : list (string * list string)) :
  (select download_pdb o input).*1 = input.*1.
Proof. unfold select. by rewrite <-list_fmap_compose. Qed.

Lemma dict_get_select download_pdb o (input : list (string * list string)) k :
  dict_get (select download_pdb o input) k
  = filter (λ x, outcome_of download_pdb x = Some o) <$> dict_get input k.
Proof.
  apply (dict_get_fmap (filter (λ x, outcome_of download_pdb x = Some o))).
Qed.

Lemma pickle_select download_pdb (w : world) (data : list (string * nat))
    (s : mappings) (h1 : list (list string)) (o : outcome) :
  NoDup data.*1 →
  (mapping_of s o).*1 = data.*1 →
  (∀ k v, (k, v) ∈ pickle (objs w) data →
          entry h1 s o k
          = Some (filter (λ x, outcome_of download_pdb x = Some o) v)) →
  pickle h1 (mapping_of s o) = select download_pdb o (pickle (objs w) data).
Proof.
  intros Hnd Hkeys Hent. apply assoc_list_eq.
  - by rewrite select_keys, !pickle_keys.
  - by rewrite pickle_keys, Hkeys.
  - intros k Hk. rewrite pickle_keys, Hkeys in Hk.
    rewrite <-(pickle_keys (objs w) data) in Hk.
    apply list_elem_of_fmap in Hk as ([k' v] & -> & Hin). simpl.
    rewrite dict_get_select.
    rewrite (elem_dict_get _ _ _ ltac:(by rewrite pickle_keys) Hin).
    by apply Hent.
Qed.

Lemma finish_files s verbose w :
  disk (finish s verbose w).2 =
    disk w ++
    files_of (without_empty (pickle (objs w) (complete s)))
             (without_empty (pickle (objs w) (incomplete s)))
             (without_empty (pickle (objs w) (not_downloadable s))).
Proof.
  destruct (finish_world s verbose w) as [_ ->].
  unfold checkpoint_of, files_of, without_empty. by rewrite !pickle_prune.
Qed.

Lemma run_seq_disk download_pdb (c i n : list (string * nat))
    (ts : list (string * string)) count w :
  ∃ extra,
    disk (run_seq download_pdb c i n ts count w) = disk w ++ extra ∧
    extra.*1 = checkpoint_files download_pdb ts count.
Proof.
  revert count w. induction ts as [|t ts IH]; intros count w.
  - exists []. by rewrite app_nil_r.
  - destruct (IH (S count) (step_world download_pdb c i n t count w))
      as (extra & Hd & Hn).
    cbn [run_seq checkpoint_files]. rewrite Hd. unfold step_world.
    destruct (outcome_of download_pdb t.1) as [o|].
    + eexists. simpl. rewrite <-app_assoc.
      split; [done|]. rewrite fmap_app, Hn.
      by destruct (checkpoint_due _ _).
    + by exists extra.
Qed.

Lemma classify_phase_select download_pdb (data : list (string * nat)) w :
  valid_input w data →
  caught download_pdb (tasks_of (pickle (objs w) data)) →
  ∃ s w1 extra,
    classify_phase download_pdb data w
      = (Ok (s, total_len (objs w) data), w1) ∧
    classified download_pdb w data s w1 ∧
    disk w1 = disk w ++ extra ∧
    extra.*1
      = checkpoint_files download_pdb (tasks_of (pickle (objs w) data)) 0 ∧
    ∀ o, pickle (objs w1) (mapping_of s o)
         = select download_pdb o (pickle (objs w) data).
Proof.
  intros Hv Hcaught.
  destruct (classify_phase_ordered download_pdb data w Hv Hcaught)
    as (s & w1 & Hrun & _ & Hent).
  destruct (classify_phase_classified download_pdb data w Hv Hcaught)
    as (s' & w1' & Hrun' & Hcl).
  rewrite Hrun in Hrun'. injection Hrun' as <- <-.
  pose proof (classify_phase_eq download_pdb data w Hv Hcaught) as Heq.
  simpl in Heq. rewrite Hrun in Heq. injection Heq as _ _ Hw1.
  destruct (run_seq_disk download_pdb
              (fresh_dict data.*1 (length (objs w)))
              (fresh_dict data.*1 (length (objs w) + length data))
              (fresh_dict data.*1 (length (objs w) + length data + length data))
              (tasks_of (pickle (objs w) data)) 0
              (init_world w (length data))) as (extra & Hd & Hn).
  rewrite <-Hw1 in Hd. simpl in Hd.
  exists s, w1, extra. split; [done|]. split; [done|].
  split; [done|]. split; [done|]. intros o.
  apply pickle_select; [apply Hv | apply (cl_keys _ _ _ _ _ Hcl) |].
  intros k v Hin. by apply Hent.
Qed.

(** X1: when the capability raises nothing outside [Exception] on the
    identifiers of the input, the three files a sequential run ends with
    are a function of the content of its input alone: every group of the
    input that has an identifier of the category, in the order of the
    input, with these identifiers in their order. *)
Theorem sequential_files_determined
    (download_pdb : string → string → download_result)
    (data : pydict) (w : world) (verbose : bool) :
  valid_input w data →
  caught download_pdb (tasks_of (pickle (objs w) data)) →
  let input := pickle (objs w) data in
  ∃ checkpoints,
    disk (classify_pdb_batch download_pdb data verbose w).2 =
      disk w ++ checkpoints ++
      files_of (without_empty (select download_pdb Complete input))
               (without_empty (select download_pdb Incomplete input))
               (without_empty (select download_pdb NotRetrievable input)).
Proof.
  intros Hv Hcaught input.
  destruct (classify_phase_select download_pdb data w Hv Hcaught)
    as (s & w1 & extra & Hrun & Hcl & Hd & _ & Hsel).
  erewrite classify_pdb_batch_eq by exact Hrun.
  rewrite finish_files.
  pose proof (Hsel Complete) as Hc. pose proof (Hsel Incomplete) as Hi.
  pose proof (Hsel NotRetrievable) as Hn.
  unfold mapping_of in Hc, Hi, Hn. simpl in Hc, Hi, Hn.
  rewrite Hc, Hi, Hn, Hd. exists extra. by rewrite <-app_assoc.
Qed.

Lemma sequential_files_determined_witness :
  valid_input scenario_world scenario_data ∧
  caught scenario_download
    (tasks_of (pickle (objs scenario_world) scenario_data)) ∧
  ∃ checkpoints,
    disk (classify_pdb_batch scenario_download scenario_data true
            scenario_world).2 =
      disk scenario_world ++ checkpoints ++
      files_of [("A", ["x1"])] [("A", ["x2"])] [("B", ["y1"])].
Proof.
  assert (valid_input scenario_world scenario_data) as Hv
    by (split; compute_done).
  assert (caught scenario_download
            (tasks_of (pickle (objs scenario_world) scenario_data))) as Hc
    by compute_done.
  split; [exact Hv|]. split; [exact Hc|].
  exact (sequential_files_determined scenario_download scenario_data
           scenario_world true Hv Hc).
Defined.

Lemma parallel_phase_entries download_pdb
    (completion_order : list (string * string) → list (string * string))
    (data : list (string * nat)) w :
  valid_input w data →
  (∀ ts, completion_order ts ≡ₚ ts) →
  ∃ s w1,
    parallel_phase download_pdb completion_order data w = (Ok s, w1) ∧
    disk w1 = disk w ∧
    classified download_pdb w data s w1 ∧
    ∀ k o, k ∈ data.*1 →
      entry (objs w1) s o k
      = Some (filter (λ t, outcome_of download_pdb t.1 = Some o ∧ t.2 = k)
                     (completion_order (tasks_of (pickle (objs w) data)))).*1.
Proof.
  intros Hv Hperm.
  destruct (parallel_phase_classified download_pdb completion_order
              Hperm data w Hv) as (s & w1 & Hrun & Hd & Hcl).
  exists s, w1. do 3 (split; [done|]).
  pose proof (parallel_phase_eq download_pdb completion_order Hperm data w Hv)
    as Heq. simpl in Heq. rewrite Hrun in Heq. injection Heq as -> ->.
  destruct Hv as [Hnd Hval].
  assert (length data.*1 = length data) as Hm by apply length_fmap.
  pose proof (layout_init data.*1 (length (objs w))) as Hlay.
  simpl in Hlay. rewrite Hm in Hlay.
  intros k o Hk. unfold entry, mapping_of. simpl.
  apply (entry_after download_pdb _ _ _ _ _ _ Hlay); [done| | |].
  - rewrite Hperm, <-(pickle_keys (objs w) data). apply tasks_of_groups.
  - pose proof (init_world_length w (length data)) as Hlen.
    simpl in Hlen. lia.
  - apply (init_world_fresh w (length data)).
    apply (slot_range _ _ _ _ _ _ Hlay o k Hk).
Qed.

Lemma same_up_to_order_intro (a b : list (string * list string)) :
  a.*1 = b.*1 → NoDup a.*1 →
  (∀ k, k ∈ a.*1 →
        ∃ x y, dict_get a k = Some x ∧ dict_get b k = Some y ∧ x ≡ₚ y) →
  same_up_to_order a b.
Proof.
  unfold same_up_to_order. revert b.
  induction a as [|[k v] a IH]; intros [|[k' v'] b] Hkeys Hnd Hget;
    try done.
  simpl in Hkeys. injection Hkeys as <- Hkeys.
  apply NoDup_cons in Hnd as [Hk Hnd].
  apply Forall2_cons. split.
  - destruct (Hget k ltac:(left)) as (x & y & Hx & Hy & Hxy).
    simpl in Hx, Hy. rewrite decide_True in Hx, Hy by done.
    injection Hx as <-. injection Hy as <-. done.
  - apply IH; [done..|]. intros k0 Hk0.
    destruct (Hget k0 ltac:(by right)) as (x & y & Hx & Hy & Hxy).
    simpl in Hx, Hy.
    rewrite decide_False in Hx, Hy; [eauto|by intros ->..].
Qed.

Lemma same_up_to_order_without_empty (a b : list (string * list string)) :
  same_up_to_order a b →
  same_up_to_order (without_empty a) (without_empty b).
Proof.
  unfold same_up_to_order, without_empty.
  induction 1 as [|[k v] [k' v'] a b [Hk Hv] _ IH]; [constructor|].
  simpl in Hk, Hv. rewrite !filter_cons. cbn [snd].
  destruct (decide (v = [])) as [He|Hne].
  - assert (v' = []) as He'.
    { subst v. by apply Permutation_nil_l in Hv. }
    rewrite !decide_False; [done | by intros ? | by intros ?].
  - assert (v' ≠ []) as Hne'.
    { intros ->. by apply Permutation_nil_r in Hv. }
    rewrite !decide_True by done. by constructor.
Qed.

Lemma pickle_select_perm download_pdb (w : world) (data : list (string * nat))
    (s : mappings) (w1 : world) (o : outcome) :
  NoDup data.*1 →
  classified download_pdb w data s w1 →
  same_up_to_order (pickle (objs w1) (mapping_of s o))
                   (select download_pdb o (pickle (objs w) data)).
Proof.
  intros Hnd Hcl. apply same_up_to_order_intro.
  - by rewrite select_keys, !pickle_keys, (cl_keys _ _ _ _ _ Hcl).
  - by rewrite pickle_keys, (cl_keys _ _ _ _ _ Hcl).
  - intros k Hk. rewrite pickle_keys, (cl_keys _ _ _ _ _ Hcl) in Hk.
    rewrite <-(pickle_keys (objs w) data) in Hk.
    apply list_elem_of_fmap in Hk as ([k' v] & -> & Hin). simpl.
    destruct (cl_entries _ _ _ _ _ Hcl k' v o Hin) as (e & He & Pe).
    exists e, (filter (λ x, outcome_of download_pdb x = Some o) v).
    split; [exact He|]. split; [|exact Pe].
    rewrite dict_get_select.
    by rewrite (elem_dict_get _ _ _ ltac:(by rewrite pickle_keys) Hin).
Qed.



Lemma checkpoint_files_names download_pdb (ts : list (string * string))
    count :
  Forall (λ f, f ∈ output_files) (checkpoint_files download_pdb ts count).
Proof.
  revert count. induction ts as [|t ts IH]; intros count; simpl; [done|].
  apply Forall_app. split; [|apply IH].
  destruct (outcome_of download_pdb t.1) as [o|]; [|done].
  destruct (checkpoint_due _ _); [|done].
  unfold output_files.
  repeat (apply Forall_cons_2; [rewrite !elem_of_cons; tauto|]).
  apply Forall_nil_2.
Qed.

Lemma sequential_disk download_pdb (data : list (string * nat)) w verbose :
  valid_input w data →
  caught download_pdb (tasks_of (pickle (objs w) data)) →
  let input := pickle (objs w) data in
  ∃ checkpoints,
    disk (classify_pdb_batch download_pdb data verbose w).2 =
      disk w ++ checkpoints ++
      files_of (without_empty (select download_pdb Complete input))
               (without_empty (select download_pdb Incomplete input))
               (without_empty (select download_pdb NotRetrievable input)) ∧
    checkpoints.*1 = checkpoint_files download_pdb (tasks_of input) 0.
Proof.
  intros Hv Hcaught input.
  destruct (classify_phase_select download_pdb data w Hv Hcaught)
    as (s & w1 & extra & Hrun & Hcl & Hd & Hnames & Hsel).
  erewrite classify_pdb_batch_eq by exact Hrun.
  rewrite finish_files.
  pose proof (Hsel Complete) as Hc. pose proof (Hsel Incomplete) as Hi.
  pose proof (Hsel NotRetrievable) as Hn.
  unfold mapping_of in Hc, Hi, Hn. simpl in Hc, Hi, Hn.
  rewrite Hc, Hi, Hn, Hd. exists extra. by rewrite <-app_assoc.
Qed.

Lemma frame_valid_input (w w' : world) (data : list (string * nat)) :
  valid_input w data →
  (∀ l, l < length (objs w) → objs w' !! l = objs w !! l) →
  valid_input w' data ∧ pickle (objs w') data = pickle (objs w) data.
Proof.
  intros [Hnd Hval] Hframe. split; [split; [done|]|].
  - eapply Forall_impl; [exact Hval|]. intros l Hl. simpl in *.
    destruct (lookup_lt_is_Some_2 _ _ Hl) as [v Hv].
    rewrite <-(Hframe l Hl) in Hv. by eapply lookup_lt_Some.
  - apply pickle_frame. eapply Forall_impl; [exact Hval|]. apply Hframe.
Qed.

(** ** The checkpoints of the sequential loops *)

Lemma appends_app (aps1 aps2 : list (nat * string)) (h : list (list string)) :
  appends (aps1 ++ aps2) h = appends aps2 (appends aps1 h).
Proof. apply foldl_app. Qed.

Lemma dict_get_tabulate {V} (f : string → V) (keys : list string) k :
  k ∈ keys → dict_get ((λ k, (k, f k)) <$> keys) k = Some (f k).
Proof.
  induction keys as [|k' keys IH]; intros Hk.
  - by apply elem_of_nil in Hk.
  - rewrite fmap_cons. simpl. case_decide as Hkk; [by subst|].
    apply IH. apply elem_of_cons in Hk as [->|Hk]; done.
Qed.

Lemma progress_keys download_pdb o keys (ts : list (string * string)) :
  (progress download_pdb o keys ts).*1 = keys.
Proof.
  unfold progress. rewrite <-list_fmap_compose. apply list_fmap_id.
Qed.

Lemma pickle_progress download_pdb n0 n1 keys (c i n : list (string * nat))
    (h : list (list string)) (ts : list (string * string)) o :
  layout n0 n1 keys c i n →
  NoDup keys →
  Forall (λ t, t.2 ∈ keys) ts →
  n1 ≤ length h →
  (∀ k o, k ∈ keys → h !!! slot c i n o k = []) →
  pickle (appends (appends_of download_pdb c i n ts) h) (pick c i n o)
  = progress download_pdb o keys ts.
Proof.
  intros Hlay Hnd Hts Hlen Hempty.
  assert ((pick c i n o).*1 = keys) as Hkeys
    by (destruct Hlay, o; done).
  apply assoc_list_eq.
  - by rewrite pickle_keys, progress_keys.
  - by rewrite pickle_keys, Hkeys.
  - intros k Hk. rewrite pickle_keys, Hkeys in Hk.
    rewrite (entry_after download_pdb n0 n1 keys c i n Hlay) by auto.
    unfold progress. by rewrite dict_get_tabulate.
Qed.

Lemma run_seq_checkpoint_at download_pdb (c i n : list (string * nat))
    (ts1 ts2 : list (string * string)) t o count w :
  outcome_of download_pdb t.1 = Some o →
  checkpoint_due o (S (count + length ts1)) = true →
  ∃ before after,
    disk (run_seq download_pdb c i n (ts1 ++ t :: ts2) count w) =
      disk w ++ before ++
      checkpoint_of
        (appends (appends_of download_pdb c i n (ts1 ++ [t])) (objs w))
        c i n ++
      after.
Proof.
  intros Ho Hdue. rewrite run_seq_app. cbn [run_seq].
  destruct (run_seq_disk download_pdb c i n ts1 count w) as (before & Hb & _).
  destruct (run_seq_disk download_pdb c i n ts2 (S (count + length ts1))
              (step_world download_pdb c i n t (count + length ts1)
                 (run_seq download_pdb c i n ts1 count w)))
    as (after & Ha & _).
  exists before, after. rewrite Ha. unfold step_world. rewrite Ho.
  cbn [disk objs]. rewrite Hdue, Hb.
  rewrite run_seq_objs, appends_of_app, appends_app, <-!app_assoc.
  rewrite (appends_of_cons download_pdb c i n t []), Ho. done.
Qed.

Lemma progress_prefix download_pdb (input : list (string * list string))
    (m : nat) k v o :
  NoDup input.*1 → (k, v) ∈ input →
  ∃ e,
    dict_get (progress download_pdb o input.*1 (take m (tasks_of input))) k
      = Some e ∧
    e `prefix_of` filter (λ x, outcome_of download_pdb x = Some o) v.
Proof.
  intros Hnd Hin. eexists. split.
  - unfold progress. apply dict_get_tabulate.
    apply list_elem_of_fmap. by exists (k, v).
  - rewrite <-(tasks_of_filter (outcome_of download_pdb) (Some o) input k v)
      by done.
    rewrite <-(take_drop m (tasks_of input)) at 2.
    rewrite filter_app, fmap_app. by eexists.
Qed.

(** X4: in the sequential mode, when the capability raises nothing outside
    [Exception] on the identifiers of the input and does not raise on the
    identifier that makes the counter a multiple of 10, the loops write the
    three files with what the identifiers processed so far, that one
    included, have been classified to: every group of the input is in each
    file, with an empty sequence when it has no such identifier yet, and
    every sequence is the beginning of the sequence the loops end with. *)
Theorem checkpoint_holds_progress
    (download_pdb : string → string → download_result)
    (data : pydict) (w : world) (j : nat) (t : string * string) :
  valid_input w data →
  caught download_pdb (tasks_of (pickle (objs w) data)) →
  let tasks := tasks_of (pickle (objs w) data) in
  tasks !! j = Some t →
  S j mod 10 = 0 →
  outcome_of download_pdb t.1 ≠ Some NotRetrievable →
  (∃ s count w1 before after,
     classify_phase download_pdb data w = (Ok (s, count), w1) ∧
     disk w1 =
       disk w ++ before ++
       files_of (progress download_pdb Complete data.*1 (take (S j) tasks))
                (progress download_pdb Incomplete data.*1 (take (S j) tasks))
                (progress download_pdb NotRetrievable data.*1
                   (take (S j) tasks)) ++
       after) ∧
  ∀ k v o,
    (k, v) ∈ pickle (objs w) data →
    ∃ e,
      dict_get (progress download_pdb o data.*1 (take (S j) tasks)) k
        = Some e ∧
      e `prefix_of` filter (λ x, outcome_of download_pdb x = Some o) v.
Proof.
  intros Hv Hcaught tasks Hj Hmod Hout. split.
  2:{ intros k v o Hin. subst tasks.
      rewrite <-(pickle_keys (objs w) data).
      apply progress_prefix; [rewrite pickle_keys; apply Hv | done]. }
  pose proof (classify_phase_eq download_pdb data w Hv Hcaught) as Heq.
  assert (∃ o, outcome_of download_pdb t.1 = Some o ∧ o ≠ NotRetrievable)
    as (ot & Ho & Hne).
  { unfold caught in Hcaught. rewrite Forall_forall in Hcaught.
    destruct (Hcaught t (list_elem_of_lookup_2 _ _ _ Hj)) as [o' Ho'].
    exists o'. split; [done|]. intros ->. done. }
  simpl in Heq. fold tasks in Heq.
  destruct Hv as [Hnd Hval].
  assert (length data.*1 = length data) as Hm by apply length_fmap.
  pose proof (layout_init data.*1 (length (objs w))) as Hlay.
  simpl in Hlay. rewrite Hm in Hlay.
  set (c := fresh_dict data.*1 (length (objs w))) in *.
  set (i := fresh_dict data.*1 (length (objs w) + length data)) in *.
  set (n := fresh_dict data.*1 (length (objs w) + length data + length data))
    in *.
  assert (Forall (λ t, t.2 ∈ data.*1) tasks) as Hgroups.
  { subst tasks. rewrite <-(pickle_keys (objs w) data).
    apply tasks_of_groups. }
  assert (tasks = take j tasks ++ t :: drop (S j) tasks) as Hsplit
    by (symmetry; by apply take_drop_middle).
  assert (length (take j tasks) = j) as Hlen.
  { apply length_take_le. apply lookup_lt_Some in Hj. lia. }
  destruct (run_seq_checkpoint_at download_pdb c i n (take j tasks)
              (drop (S j) tasks) t ot 0 (init_world w (length data)) Ho)
    as (before & after & Hd).
  { rewrite Hlen. unfold checkpoint_due.
    by rewrite !bool_decide_eq_true_2. }
  rewrite <-Hsplit in Hd. rewrite <-(take_S_r _ _ _ Hj) in Hd.
  eexists _, _, _, before, after. split; [exact Heq|].
  rewrite Hd. simpl. do 2 f_equal. unfold checkpoint_of, files_of.
  assert (∀ o, pickle
                 (appends (appends_of download_pdb c i n (take (S j) tasks))
                          (objs w ++ replicate
                             (length data + length data + length data) []))
                 (pick c i n o)
               = progress download_pdb o data.*1 (take (S j) tasks)) as Hp.
  { intros o. apply (pickle_progress _ _ _ _ _ _ _ _ _ _ Hlay Hnd).
    - by apply Forall_take.
    - pose proof (init_world_length w (length data)) as Hl.
      simpl in Hl. lia.
    - intros k o' Hk. apply (init_world_fresh w (length data)).
      apply (slot_range _ _ _ _ _ _ Hlay o' k Hk). }
  pose proof (Hp Complete) as Hc. pose proof (Hp Incomplete) as Hi.
  pose proof (Hp NotRetrievable) as Hn. simpl in Hc, Hi, Hn.
  by rewrite Hc, Hi, Hn.
Qed.

Lemma checkpoint_due_spec o count :
  checkpoint_due o count = true ↔ o ≠ NotRetrievable ∧ count mod 10 = 0.
Proof.
  unfold checkpoint_due.
  rewrite andb_true_iff, !bool_decide_eq_true. done.
Qed.

Lemma div_10_succ c :
  S c / 10 = if decide (S c mod 10 = 0) then S (c / 10) else c / 10.
Proof.
  pose proof (Nat.div_mod_eq (S c) 10). pose proof (Nat.div_mod_eq c 10).
  pose proof (Nat.mod_upper_bound c 10 ltac:(lia)).
  pose proof (Nat.mod_upper_bound (S c) 10 ltac:(lia)).
  case_decide; lia.
Qed.

Lemma checkpoint_files_shape download_pdb (ts : list (string * string))
    count :
  ∃ m,
    checkpoint_files download_pdb ts count
      = mjoin (replicate m output_files) ∧
    m ≤ (count + length ts) / 10 - count / 10 ∧
    (caught download_pdb ts →
     Forall (λ t, outcome_of download_pdb t.1 ≠ Some NotRetrievable) ts →
     m = (count + length ts) / 10 - count / 10).
Proof.
  revert count. induction ts as [|t ts IH]; intros count.
  - exists 0. cbn [checkpoint_files length]. rewrite Nat.add_0_r.
    split; [done|]. split; lia.
  - destruct (IH (S count)) as (m & Hfiles & Hle & Heq).
    assert (S count / 10 ≤ (S count + length ts) / 10) as Hmono
      by (apply Nat.Div0.div_le_mono; lia).
    pose proof (div_10_succ count) as Hdiv.
    cbn [checkpoint_files length]. rewrite Hfiles.
    replace (count + S (length ts)) with (S count + length ts) by lia.
    destruct (outcome_of download_pdb t.1) as [o|] eqn:Hout.
    + destruct (checkpoint_due o (S count)) eqn:Hdue.
      * apply checkpoint_due_spec in Hdue as [Ho Hmod].
        rewrite decide_True in Hdiv by done.
        exists (S m). split; [done|]. split; [lia|].
        intros Hc Hall. apply Forall_cons in Hc as [_ Hc].
        apply Forall_cons in Hall as [_ Hall].
        specialize (Heq Hc Hall). lia.
      * exists m. split; [done|]. case_decide as Hmod.
        -- split; [lia|]. intros _ Hall.
           apply Forall_cons in Hall as [Ho _].
           assert (checkpoint_due o (S count) = true) as Hd.
           { apply checkpoint_due_spec. split; [|done].
             intros ->. by rewrite Hout in Ho. }
           congruence.
        -- split; [lia|]. intros Hc Hall.
           apply Forall_cons in Hc as [_ Hc].
           apply Forall_cons in Hall as [_ Hall].
           specialize (Heq Hc Hall). lia.
    + exists m. split; [done|]. split.
      * case_decide; lia.
      * intros Hc. apply Forall_cons in Hc as [[o Ho] _]. congruence.
Qed.

(** X5: when the capability raises nothing outside [Exception] on the
    identifiers of the input, a sequential run writes its files in whole
    checkpoints, the three files in the same order each time: at most one
    checkpoint for every ten
    identifiers of the input while the loops run, exactly one for every ten
    when the capability never raises, and one more at the end; an input of
    fewer than ten identifiers is written once. *)
Theorem sequential_checkpoint_count
    (download_pdb : string → string → download_result)
    (data : pydict) (w : world) (verbose : bool) :
  valid_input w data →
  caught download_pdb (tasks_of (pickle (objs w) data)) →
  let input := pickle (objs w) data in
  let total := total_len (objs w) data in
  ∃ m,
    (disk (classify_pdb_batch download_pdb data verbose w).2).*1 =
      (disk w).*1 ++ mjoin (replicate m output_files) ++ output_files ∧
    m ≤ total / 10 ∧
    (Forall (λ t, outcome_of download_pdb t.1 ≠ Some NotRetrievable)
            (tasks_of input) →
     m = total / 10) ∧
    (total < 10 → m = 0).
Proof.
  intros Hv Hcaught input total.
  destruct (sequential_disk download_pdb data w verbose Hv Hcaught)
    as (ck & Hd & Hnames).
  destruct (checkpoint_files_shape download_pdb (tasks_of input) 0)
    as (m & Hshape & Hle & Heq).
  fold input in Hnames. rewrite Hshape in Hnames.
  assert (length (tasks_of input) = total) as Hlen
    by (symmetry; apply total_len_tasks).
  rewrite Hlen, Nat.add_0_l, Nat.Div0.div_0_l, Nat.sub_0_r in Hle, Heq.
  exists m. split; [|split; [done|split; [by apply Heq|]]].
  - rewrite Hd, !fmap_app, Hnames. done.
  - intros Hsmall. rewrite Nat.div_small in Hle by done. lia.
Qed.

Lemma sequential_checkpoint_count_witness :
  valid_input twenty_five_world twenty_five_data ∧
  caught all_complete
    (tasks_of (pickle (objs twenty_five_world) twenty_five_data)) ∧
  ∃ m,
    (disk (classify_pdb_batch all_complete twenty_five_data false
             twenty_five_world).2).*1 =
      (disk twenty_five_world).*1 ++ mjoin (replicate m output_files)
        ++ output_files ∧
    m ≤ 25 / 10.
Proof.
  assert (valid_input twenty_five_world twenty_five_data) as Hv
    by (split; compute_done).
  assert (caught all_complete
            (tasks_of (pickle (objs twenty_five_world) twenty_five_data)))
    as Hc by compute_done.
  split; [exact Hv|]. split; [exact Hc|].
  destruct (sequential_checkpoint_count all_complete twenty_five_data
              twenty_five_world false Hv Hc) as (m & Hd & Hle & _).
  exists m. split; [exact Hd | exact Hle].
Defined.

Lemma checkpoint_holds_progress_witness :
  valid_input twenty_five_world twenty_five_data ∧
  caught all_complete
    (tasks_of (pickle (objs twenty_five_world) twenty_five_data)) ∧
  tasks_of (pickle (objs twenty_five_world) twenty_five_data) !! 9
    = Some ("a10", "A") ∧
  ∃ s count w1 before after,
    classify_phase all_complete twenty_five_data twenty_five_world
      = (Ok (s, count), w1) ∧
    disk w1 =
      disk twenty_five_world ++ before ++
      files_of
        [("A", ["a1"; "a2"; "a3"; "a4"; "a5"; "a6"; "a7"; "a8"; "a9"; "a10"]);
         ("B", [])]
        [("A", []); ("B", [])]
        [("A", []); ("B", [])] ++
      after.
Proof.
  assert (valid_input twenty_five_world twenty_five_data) as Hv
    by (split; compute_done).
  assert (caught all_complete
            (tasks_of (pickle (objs twenty_five_world) twenty_five_data)))
    as Hc by compute_done.
  split; [exact Hv|]. split; [exact Hc|]. split; [reflexivity|].
  apply (checkpoint_holds_progress all_complete twenty_five_data
           twenty_five_world 9 ("a10", "A") Hv Hc).
  - reflexivity.
  - reflexivity.
  - discriminate.
Defined.

(** ** Running again *)

Lemma run_seq_writes download_pdb n0 n1 keys (c i n : list (string * nat))
    (h0 : list (list string)) (prev ts : list (string * string)) count w :
  layout n0 n1 keys c i n →
  NoDup keys →
  Forall (λ t, t.2 ∈ keys) (prev ++ ts) →
  n1 ≤ length h0 →
  (∀ k o, k ∈ keys → h0 !!! slot c i n o k = []) →
  objs w = appends (appends_of download_pdb c i n prev) h0 →
  disk (run_seq download_pdb c i n ts count w) =
    disk w ++ loop_writes download_pdb keys prev ts count.
Proof.
  intros Hlay Hnd Hts Hlen Hempty. revert prev count w Hts.
  induction ts as [|t ts IH]; intros prev count w Hts Hobjs.
  - simpl. by rewrite app_nil_r.
  - cbn [run_seq loop_writes].
    assert (Forall (λ t, t.2 ∈ keys) (prev ++ [t])) as Hdone.
    { apply Forall_app in Hts as [Hd Ht]. apply Forall_app.
      split; [done|]. apply Forall_cons in Ht as [? _]. by constructor. }
    assert (objs (step_world download_pdb c i n t count w)
            = appends (appends_of download_pdb c i n (prev ++ [t])) h0)
      as Hobjs'.
    { rewrite appends_of_app, appends_app, <-Hobjs.
      rewrite (appends_of_cons download_pdb c i n t []).
      unfold step_world. by destruct (outcome_of download_pdb t.1). }
    rewrite (IH (prev ++ [t]) (S count) _
               ltac:(by rewrite <-app_assoc) Hobjs').
    rewrite app_assoc. f_equal.
    unfold step_world in *.
    destruct (outcome_of download_pdb t.1) as [o|] eqn:Ho;
      [|by rewrite app_nil_r].
    cbn [disk]. f_equal. destruct (checkpoint_due o (S count)); [|done].
    cbn [objs] in Hobjs'. rewrite Hobjs'. unfold checkpoint_of, files_of.
    pose proof (pickle_progress download_pdb n0 n1 keys c i n h0
                  (prev ++ [t])) as Hp.
    rewrite <-(Hp Complete), <-(Hp Incomplete), <-(Hp NotRetrievable)
      by done.
    done.
Qed.

Lemma loop_writes_names download_pdb keys (prev ts : list (string * string))
    count :
  Forall (λ e, e.1 ∈ output_files)
    (loop_writes download_pdb keys prev ts count).
Proof.
  revert prev count. induction ts as [|t ts IH]; intros prev count; [done|].
  cbn [loop_writes]. apply Forall_app. split; [|apply IH].
  destruct (outcome_of download_pdb t.1) as [o|]; [|done].
  destruct (checkpoint_due _ _); [|done].
  unfold files_of, output_files.
  repeat (apply Forall_cons_2; [simpl; rewrite !elem_of_cons; tauto|]).
  apply Forall_nil_2.
Qed.

Lemma sequential_writes download_pdb (data : list (string * nat)) w verbose :
  valid_input w data →
  caught download_pdb (tasks_of (pickle (objs w) data)) →
  let input := pickle (objs w) data in
  disk (classify_pdb_batch download_pdb data verbose w).2 =
    disk w ++
    loop_writes download_pdb data.*1 [] (tasks_of input) 0 ++
    files_of (without_empty (select download_pdb Complete input))
             (without_empty (select download_pdb Incomplete input))
             (without_empty (select download_pdb NotRetrievable input)).
Proof.
  intros Hv Hcaught input.
  destruct (classify_phase_select download_pdb data w Hv Hcaught)
    as (s & w1 & extra & Hrun & Hcl & _ & _ & Hsel).
  pose proof (classify_phase_eq download_pdb data w Hv Hcaught) as Heq.
  simpl in Heq. rewrite Hrun in Heq. injection Heq as _ _ Hw1.
  erewrite classify_pdb_batch_eq by exact Hrun.
  rewrite finish_files.
  pose proof (Hsel Complete) as Hc. pose proof (Hsel Incomplete) as Hi.
  pose proof (Hsel NotRetrievable) as Hn.
  unfold mapping_of in Hc, Hi, Hn. simpl in Hc, Hi, Hn.
  rewrite Hc, Hi, Hn, app_assoc. f_equal.
  destruct Hv as [Hnd Hval].
  assert (length data.*1 = length data) as Hm by apply length_fmap.
  pose proof (layout_init data.*1 (length (objs w))) as Hlay.
  simpl in Hlay. rewrite Hm in Hlay.
  rewrite Hw1.
  rewrite (run_seq_writes download_pdb _ _ _ _ _ _
             (objs (init_world w (length data))) [] _ 0 _ Hlay Hnd);
    [done| | | |done].
  - rewrite app_nil_l, <-(pickle_keys (objs w) data). apply tasks_of_groups.
  - by rewrite init_world_length.
  - intros k o Hk. apply init_world_fresh.
    apply (slot_range _ _ _ _ _ _ Hlay o k Hk).
Qed.

(** X3: when the capability raises nothing outside [Exception] on the
    identifiers of the input, the writes of a sequential run are a function
    of the content of its input: the checkpoints of the loops, each with
    what the identifiers processed so far have been classified to, then the
    three mappings of the input by category; all of them are on the three
    output paths.  The run leaves the input as it was, and a second run on
    it repeats the writes of the first. *)
Theorem sequential_rerun_same_output
    (download_pdb : string → string → download_result)
    (data : pydict) (w : world) (verbose verbose' : bool) :
  valid_input w data →
  caught download_pdb (tasks_of (pickle (objs w) data)) →
  let input := pickle (objs w) data in
  let writes :=
    loop_writes download_pdb data.*1 [] (tasks_of input) 0 ++
    files_of (without_empty (select download_pdb Complete input))
             (without_empty (select download_pdb Incomplete input))
             (without_empty (select download_pdb NotRetrievable input)) in
  let w2 := (classify_pdb_batch download_pdb data verbose w).2 in
  let w3 := (classify_pdb_batch download_pdb data verbose' w2).2 in
  valid_input w2 data ∧
  pickle (objs w2) data = input ∧
  disk w2 = disk w ++ writes ∧
  disk w3 = disk w2 ++ writes ∧
  Forall (λ e, e.1 ∈ output_files) writes.
Proof.
  intros Hv Hcaught input writes w2 w3.
  destruct (frame_valid_input w w2 data Hv
              (classify_pdb_batch_frame download_pdb data w verbose Hv))
    as [Hv2 Hsame].
  assert (caught download_pdb (tasks_of (pickle (objs w2) data))) as Hcaught2
    by by rewrite Hsame.
  pose proof (sequential_writes download_pdb data w verbose Hv Hcaught)
    as Hd.
  pose proof (sequential_writes download_pdb data w2 verbose' Hv2 Hcaught2)
    as Hd'.
  cbv zeta in Hd, Hd'. rewrite Hsame in Hd'.
  split; [exact Hv2|]. split; [exact Hsame|].
  split; [exact Hd|]. split; [exact Hd'|].
  apply Forall_app. split; [apply loop_writes_names|].
  unfold files_of, output_files.
  repeat (apply Forall_cons_2; [simpl; rewrite !elem_of_cons; tauto|]).
  apply Forall_nil_2.
Qed.

Lemma sequential_rerun_same_output_witness :
  valid_input scenario_world scenario_data ∧
  caught scenario_download
    (tasks_of (pickle (objs scenario_world) scenario_data)) ∧
  let writes :=
    files_of [("A", ["x1"])] [("A", ["x2"])] [("B", ["y1"])] in
  let w2 :=
    (classify_pdb_batch scenario_download scenario_data true
       scenario_world).2 in
  let w3 :=
    (classify_pdb_batch scenario_download scenario_data false w2).2 in
  disk w2 = disk scenario_world ++ writes ∧
  disk w3 = disk w2 ++ writes.
Proof.
  assert (valid_input scenario_world scenario_data) as Hv
    by (split; compute_done).
  assert (caught scenario_download
            (tasks_of (pickle (objs scenario_world) scenario_data))) as Hc
    by compute_done.
  split; [exact Hv|]. split; [exact Hc|].
  destruct (sequential_rerun_same_output scenario_download scenario_data
              scenario_world true false Hv Hc)
    as (_ & _ & Hd & Hd' & _).
  split; [exact Hd | exact Hd'].
Defined.

(** ** Both modes on particular inputs *)

Lemma parallel_disk download_pdb
    (completion_order : list (string * string) → list (string * string))
    (data : list (string * nat)) w verbose :
  valid_input w data →
  (∀ ts, completion_order ts ≡ₚ ts) →
  let input := pickle (objs w) data in
  ∃ pc pi pn,
    disk (parallel_classify_pdb_batch download_pdb completion_order
            data verbose w).2 = disk w ++ files_of pc pi pn ∧
    same_up_to_order pc (without_empty (select download_pdb Complete input)) ∧
    same_up_to_order pi
      (without_empty (select download_pdb Incomplete input)) ∧
    same_up_to_order pn
      (without_empty (select download_pdb NotRetrievable input)).
Proof.
  intros Hv Hperm input.
  destruct (parallel_phase_entries download_pdb completion_order
              data w Hv Hperm) as (s & w1 & Hrun & Hd & Hcl & _).
  erewrite parallel_classify_pdb_batch_eq by exact Hrun.
  rewrite finish_files, Hd. eexists _, _, _. split; [done|].
  pose proof (pickle_select_perm download_pdb w data s w1) as Hp.
  split; [|split].
  - apply same_up_to_order_without_empty, (Hp Complete); [apply Hv|done].
  - apply same_up_to_order_without_empty, (Hp Incomplete); [apply Hv|done].
  - apply same_up_to_order_without_empty, (Hp NotRetrievable);
      [apply Hv|done].
Qed.

Lemma same_up_to_order_nil (a : list (string * list string)) :
  same_up_to_order a [] → a = [].
Proof. apply Forall2_nil_inv_r. Qed.

Lemma finish_stdout s verbose w :
  stdout (finish s verbose w).2 =
    stdout w ++
    if verbose && bool_decide (number_of_pdb_ids s = 0) then []
    else (if verbose
          then [AnalysisSummary
                  (summary_of (objs w)
                     (prune (objs w) (complete s))
                     (prune (objs w) (incomplete s))
                     (prune (objs w) (not_downloadable s))
                     (number_of_pdb_ids s))]
          else []) ++
         [AnalysisDone].
Proof.
  rewrite finish_eq. destruct (_ && _); simpl; [|done].
  by rewrite app_nil_r.
Qed.

Lemma run_stdout_empty download_pdb
    (completion_order : list (string * string) → list (string * string))
    (data : list (string * nat)) w verbose :
  valid_input w data →
  (∀ ts, completion_order ts ≡ₚ ts) →
  total_len (objs w) data = 0 →
  stdout (classify_pdb_batch download_pdb data verbose w).2
    = stdout w ++ (if verbose then [] else [AnalysisDone]) ∧
  stdout (parallel_classify_pdb_batch download_pdb completion_order
            data verbose w).2
    = stdout w ++ (if verbose then [] else [AnalysisDone]).
Proof.
  intros Hv Hperm Hzero.
  destruct (classify_phase_classified download_pdb data w Hv
              (caught_no_tasks download_pdb _ _ Hzero))
    as (s & w1 & Hrun & Hcl).
  destruct (parallel_phase_classified download_pdb completion_order
              Hperm data w Hv) as (s2 & w2 & Hrun2 & _ & Hcl2).
  split.
  - erewrite classify_pdb_batch_eq by exact Hrun.
    rewrite finish_stdout, (cl_total _ _ _ _ _ Hcl), Hzero,
      (cl_stdout _ _ _ _ _ Hcl).
    by destruct verbose.
  - erewrite parallel_classify_pdb_batch_eq by exact Hrun2.
    rewrite finish_stdout, (cl_total _ _ _ _ _ Hcl2), Hzero,
      (cl_stdout _ _ _ _ _ Hcl2).
    by destruct verbose.
Qed.

Lemma select_no_tasks download_pdb o (input : list (string * list string)) :
  tasks_of input = [] → without_empty (select download_pdb o input) = [].
Proof.
  unfold without_empty, select.
  induction input as [|[k v] input IH]; [done|].
  rewrite tasks_of_cons. intros Hnil.
  apply app_eq_nil in Hnil as [Hv Hrest].
  apply fmap_nil_inv in Hv as ->.
  rewrite fmap_cons, filter_cons. simpl. by apply IH.
Qed.

(** X6: on an input without identifiers, an empty dictionary or groups
    that are all empty, a run of either mode writes its three files once,
    each with an empty dictionary; without the verbose flag it prints its
    closing lines and returns [None], with the flag it prints nothing and
    ends with the [ZeroDivisionError] after the files are written. *)
Theorem empty_input_run
    (download_pdb : string → string → download_result)
    (completion_order : list (string * string) → list (string * string))
    (data : pydict) (w : world) (verbose : bool) :
  valid_input w data →
  (∀ ts, completion_order ts ≡ₚ ts) →
  total_len (objs w) data = 0 →
  let seq := classify_pdb_batch download_pdb data verbose w in
  let par :=
    parallel_classify_pdb_batch download_pdb completion_order
      data verbose w in
  let ending :=
    if verbose then Raise ZeroDivisionError else Ok PyNone in
  let output := if verbose then [] else [AnalysisDone] in
  seq.1 = ending ∧ par.1 = ending ∧
  disk seq.2 = disk w ++ files_of [] [] [] ∧
  disk par.2 = disk w ++ files_of [] [] [] ∧
  stdout seq.2 = stdout w ++ output ∧
  stdout par.2 = stdout w ++ output.
Proof.
  intros Hv Hperm Hzero seq par ending output.
  assert (tasks_of (pickle (objs w) data) = []) as Hnil.
  { apply length_zero_iff_nil. by rewrite <-total_len_tasks. }
  pose proof (caught_no_tasks download_pdb _ _ Hzero) as Hcaught.
  destruct (run_endings download_pdb completion_order data w verbose
              Hv Hcaught Hperm) as [Hseq Hpar].
  rewrite Hzero in Hseq, Hpar.
  destruct (run_stdout_empty download_pdb completion_order data w verbose
              Hv Hperm Hzero) as [Oseq Opar].
  destruct (sequential_disk download_pdb data w verbose Hv Hcaught)
    as (ck & Dseq & Hnames).
  destruct (parallel_disk download_pdb completion_order data w verbose
              Hv Hperm) as (pc & pi & pn & Dpar & Hc & Hi & Hn).
  rewrite (select_no_tasks _ Complete), (select_no_tasks _ Incomplete),
    (select_no_tasks _ NotRetrievable) in Dseq by done.
  rewrite select_no_tasks in Hc, Hi, Hn by done.
  rewrite Hnil in Hnames. apply fmap_nil_inv in Hnames as ->.
  apply same_up_to_order_nil in Hc as ->, Hi as ->, Hn as ->.
  repeat split; try done.
  - subst seq ending. rewrite Hseq. by destruct verbose.
  - subst par ending. rewrite Hpar. by destruct verbose.
Qed.

Lemma empty_input_run_witness :
  valid_input empty_world empty_data ∧
  total_len (objs empty_world) empty_data = 0 ∧
  (classify_pdb_batch scenario_download empty_data true empty_world).1
    = Raise ZeroDivisionError ∧
  disk (classify_pdb_batch scenario_download empty_data true empty_world).2
    = disk empty_world ++ files_of [] [] [].
Proof.
  assert (valid_input empty_world empty_data) as Hv
    by (split; compute_done).
  split; [exact Hv|]. split; [reflexivity|].
  destruct (empty_input_run scenario_download reverse empty_data empty_world
              true Hv ltac:(intros ts; apply reverse_Permutation) eq_refl)
    as (Hend & _ & Hdisk & _).
  split; [exact Hend | exact Hdisk].
Defined.

Lemma filter_all {A} (P : A → Prop) `{!∀ x, Decision (P x)} (l : list A) :
  Forall P l → filter P l = l.
Proof.
  induction 1 as [|x l Hx _ IH]; [done|].
  by rewrite filter_cons, decide_True, IH.
Qed.

Lemma select_all download_pdb o (input : list (string * list string)) :
  Forall (λ t, outcome_of download_pdb t.1 = Some o) (tasks_of input) →
  select download_pdb o input = input.
Proof.
  rewrite (tasks_of_Forall (λ x, outcome_of download_pdb x = Some o)).
  unfold select. induction 1 as [|[k v] input Hv _ IH]; [done|].
  rewrite fmap_cons, IH. simpl. by rewrite filter_all.
Qed.

Lemma select_other download_pdb o o' (input : list (string * list string)) :
  Forall (λ t, outcome_of download_pdb t.1 = Some o) (tasks_of input) →
  o' ≠ o →
  without_empty (select download_pdb o' input) = [].
Proof.
  rewrite (tasks_of_Forall (λ x, outcome_of download_pdb x = Some o)).
  intros Hall Hne. unfold without_empty, select.
  induction Hall as [|[k v] input Hv _ IH]; [done|].
  rewrite fmap_cons, filter_cons. simpl.
  rewrite (filter_none (λ x, outcome_of download_pdb x = Some o') v).
  - by rewrite decide_False by (by intros ?).
  - eapply Forall_impl; [exact Hv|]. simpl. congruence.
Qed.

(** X7: when the capability answers every identifier of the input alike,
    the file of that category is the input itself without its empty groups
    and the two other files are empty dictionaries; in the concurrent mode
    the sequences of the file are those of the input up to their order. *)
Theorem uniform_outcome_files
    (download_pdb : string → string → download_result)
    (completion_order : list (string * string) → list (string * string))
    (data : pydict) (w : world) (verbose : bool) (o : outcome) :
  valid_input w data →
  (∀ ts, completion_order ts ≡ₚ ts) →
  let input := pickle (objs w) data in
  Forall (λ t, outcome_of download_pdb t.1 = Some o) (tasks_of input) →
  let file o' := if decide (o' = o) then without_empty input else [] in
  (∃ checkpoints,
     disk (classify_pdb_batch download_pdb data verbose w).2 =
       disk w ++ checkpoints ++
       files_of (file Complete) (file Incomplete) (file NotRetrievable)) ∧
  (∃ pc pi pn,
     disk (parallel_classify_pdb_batch download_pdb completion_order
             data verbose w).2 = disk w ++ files_of pc pi pn ∧
     same_up_to_order pc (file Complete) ∧
     same_up_to_order pi (file Incomplete) ∧
     same_up_to_order pn (file NotRetrievable)).
Proof.
  intros Hv Hperm input Hall file.
  assert (∀ o', without_empty (select download_pdb o' input) = file o')
    as Hfile.
  { intros o'. subst file. simpl. case_decide as Ho.
    - subst o'. by rewrite select_all.
    - by eapply select_other. }
  assert (caught download_pdb (tasks_of input)) as Hcaught.
  { eapply Forall_impl; [exact Hall|]. intros t ->. done. }
  destruct (sequential_disk download_pdb data w verbose Hv Hcaught)
    as (ck & Dseq & _).
  destruct (parallel_disk download_pdb completion_order data w verbose
              Hv Hperm) as (pc & pi & pn & Dpar & Hc & Hi & Hn).
  fold input in Dseq, Hc, Hi, Hn.
  rewrite (Hfile Complete), (Hfile Incomplete), (Hfile NotRetrievable)
    in Dseq.
  rewrite Hfile in Hc, Hi, Hn.
  split; [by exists ck | by exists pc, pi, pn].
Qed.

Lemma uniform_outcome_files_witness :
  valid_input twenty_five_world twenty_five_data ∧
  ∃ checkpoints,
    disk (classify_pdb_batch all_complete twenty_five_data false
            twenty_five_world).2 =
      disk twenty_five_world ++ checkpoints ++
      files_of
        (without_empty (pickle (objs twenty_five_world) twenty_five_data))
        [] [].
Proof.
  assert (valid_input twenty_five_world twenty_five_data) as Hv
    by (split; compute_done).
  split; [exact Hv|].
  destruct (uniform_outcome_files all_complete reverse twenty_five_data
              twenty_five_world false Complete Hv
              ltac:(intros ts; apply reverse_Permutation)) as [Hseq _].
  - apply Forall_forall. intros t _. reflexivity.
  - exact Hseq.
Defined.

Lemma sum_len_same_up_to_order (a b : list (string * list string)) :
  same_up_to_order a b →
  sum_list ((λ kv, length kv.2) <$> a) = sum_list ((λ kv, length kv.2) <$> b).
Proof.
  induction 1 as [|x y a b [_ Hxy] _ IH]; [done|].
  rewrite !fmap_cons. simpl. by rewrite IH, (Permutation_length Hxy).
Qed.

Lemma sum_len_select download_pdb o (input : list (string * list string)) :
  sum_list ((λ kv, length kv.2) <$> select download_pdb o input)
  = length (filter (λ t, outcome_of download_pdb t.1 = Some o)
                   (tasks_of input)).
Proof.
  unfold select. induction input as [|[k v] input IH]; [done|].
  rewrite tasks_of_cons, filter_app, length_app, !fmap_cons. simpl.
  rewrite IH. f_equal. clear.
  induction v as [|x v IHv]; [done|].
  rewrite fmap_cons, !filter_cons. simpl.
  destruct (decide (outcome_of download_pdb x = Some o)); simpl; by rewrite IHv.
Qed.

Lemma classified_count download_pdb w (data : list (string * nat)) s w1 o :
  NoDup data.*1 →
  classified download_pdb w data s w1 →
  total_len (objs w1) (prune (objs w1) (mapping_of s o))
  = length (filter (λ t, outcome_of download_pdb t.1 = Some o)
                   (tasks_of (pickle (objs w) data))).
Proof.
  intros Hnd Hcl. rewrite total_len_prune, total_len_pickle.
  rewrite (sum_len_same_up_to_order _ _
             (pickle_select_perm download_pdb w data s w1 o Hnd Hcl)).
  apply sum_len_select.
Qed.

Lemma finish_report download_pdb w (data : list (string * nat)) s w1 :
  NoDup data.*1 →
  classified download_pdb w data s w1 →
  total_len (objs w) data ≠ 0 →
  let tasks := tasks_of (pickle (objs w) data) in
  let count o :=
    length (filter (λ t, outcome_of download_pdb t.1 = Some o) tasks) in
  let total := length tasks in
  stdout (finish s true w1).2 =
    stdout w ++
    [AnalysisSummary
       (Summary total
          (count Complete) (binary64_percentage (count Complete) total)
          (count Incomplete) (binary64_percentage (count Incomplete) total)
          (count NotRetrievable)
          (binary64_percentage (count NotRetrievable) total));
     AnalysisDone].
Proof.
  intros Hnd Hcl Hne tasks count total.
  rewrite finish_stdout, (cl_total _ _ _ _ _ Hcl), (cl_stdout _ _ _ _ _ Hcl).
  rewrite bool_decide_eq_false_2 by done. simpl.
  unfold summary_of.
  pose proof (classified_count download_pdb w data s w1 Complete Hnd Hcl)
    as Hc.
  pose proof (classified_count download_pdb w data s w1 Incomplete Hnd Hcl)
    as Hi.
  pose proof (classified_count download_pdb w data s w1 NotRetrievable
                Hnd Hcl) as Hn.
  unfold mapping_of in Hc, Hi, Hn. simpl in Hc, Hi, Hn.
  rewrite Hc, Hi, Hn, total_len_tasks. done.
Qed.

(** X8: when the capability raises nothing outside [Exception] on the
    identifiers of the input, the report of a verbose run on an input that
    has identifiers gives for each category the number of identifiers of the
    input the capability answers that way, with the total of the input and
    the three percentages of it; both modes print the same report, whatever
    the order the tasks take effect in, and their closing lines after it. *)
Theorem report_counts_outcomes
    (download_pdb : string → string → download_result)
    (completion_order : list (string * string) → list (string * string))
    (data : pydict) (w : world) :
  valid_input w data →
  caught download_pdb (tasks_of (pickle (objs w) data)) →
  (∀ ts, completion_order ts ≡ₚ ts) →
  total_len (objs w) data ≠ 0 →
  let tasks := tasks_of (pickle (objs w) data) in
  let count o :=
    length (filter (λ t, outcome_of download_pdb t.1 = Some o) tasks) in
  let total := length tasks in
  let report :=
    Summary total
      (count Complete) (binary64_percentage (count Complete) total)
      (count Incomplete) (binary64_percentage (count Incomplete) total)
      (count NotRetrievable)
      (binary64_percentage (count NotRetrievable) total) in
  stdout (classify_pdb_batch download_pdb data true w).2
    = stdout w ++ [AnalysisSummary report; AnalysisDone] ∧
  stdout (parallel_classify_pdb_batch download_pdb completion_order
            data true w).2
    = stdout w ++ [AnalysisSummary report; AnalysisDone].
Proof.
  intros Hv Hc Hperm Hne tasks count total report.
  destruct (classify_phase_classified download_pdb data w Hv Hc)
    as (s & w1 & Hrun & Hcl).
  destruct (parallel_phase_classified download_pdb completion_order
              Hperm data w Hv) as (s2 & w2 & Hrun2 & _ & Hcl2).
  destruct Hv as [Hnd _]. split.
  - erewrite classify_pdb_batch_eq by exact Hrun.
    by apply finish_report.
  - erewrite parallel_classify_pdb_batch_eq by exact Hrun2.
    by apply finish_report.
Qed.

Lemma report_counts_outcomes_witness :
  valid_input scenario_world scenario_data ∧
  caught scenario_download
    (tasks_of (pickle (objs scenario_world) scenario_data)) ∧
  total_len (objs scenario_world) scenario_data ≠ 0 ∧
  stdout (parallel_classify_pdb_batch scenario_download reverse
            scenario_data true scenario_world).2
    = stdout scenario_world ++
      [AnalysisSummary
         (Summary 3 1 (binary64_percentage 1 3) 1 (binary64_percentage 1 3)
                  1 (binary64_percentage 1 3));
       AnalysisDone].
Proof.
  assert (valid_input scenario_world scenario_data) as Hv
    by (split; compute_done).
  assert (total_len (objs scenario_world) scenario_data ≠ 0) as Hne
    by (vm_compute; lia).
  assert (caught scenario_download
            (tasks_of (pickle (objs scenario_world) scenario_data))) as Hc
    by compute_done.
  split; [exact Hv|]. split; [exact Hc|]. split; [exact Hne|].
  destruct (report_counts_outcomes scenario_download reverse scenario_data
              scenario_world Hv Hc
              ltac:(intros ts; apply reverse_Permutation) Hne) as [_ Hpar].
  exact Hpar.
Defined.

(** ** Exceptions outside [Exception] *)

(** X10: a sequential run ends with the exception of the capability exactly
    when the capability raises outside [Exception] on an identifier of the
    input; the run has then printed nothing, and what it has written are
    whole checkpoints of its loops, at most one for every ten of the
    identifiers before the first on which the capability raised so. *)
Theorem sequential_run_interrupted
    (download_pdb : string → string → download_result)
    (data : pydict) (w : world) (verbose : bool) :
  valid_input w data →
  let tasks := tasks_of (pickle (objs w) data) in
  let run := classify_pdb_batch download_pdb data verbose w in
  (run.1 = Raise DownloadBaseException ↔ ¬ caught download_pdb tasks) ∧
  (¬ caught download_pdb tasks →
   stdout run.2 = stdout w ∧
   ∃ m,
     (disk run.2).*1 = (disk w).*1 ++ mjoin (replicate m output_files) ∧
     m ≤ length (before_abort download_pdb tasks) / 10).
Proof.
  intros Hv tasks run.
  pose proof (classify_phase_any download_pdb data w Hv) as Heq.
  cbv zeta in Heq. fold tasks in Heq.
  subst run. unfold classify_pdb_batch, bind. rewrite Heq.
  destruct (decide (caught download_pdb tasks)) as [Hc|Hc].
  - split; [|done]. cbn [fst]. rewrite finish_result.
    split; [|done]. by destruct (_ && _).
  - split; [done|]. intros _. cbn [fst snd].
    split; [by rewrite run_seq_stdout|].
    destruct (checkpoint_files_shape download_pdb
                (before_abort download_pdb tasks) 0)
      as (m & Hshape & Hle & _).
    exists m. rewrite run_seq_files, Hshape. split; [done|].
    by rewrite Nat.add_0_l, Nat.Div0.div_0_l, Nat.sub_0_r in Hle.
Qed.

Lemma sequential_run_interrupted_witness :
  valid_input scenario_world scenario_data ∧
  ¬ caught interrupted_download
      (tasks_of (pickle (objs scenario_world) scenario_data)) ∧
  (classify_pdb_batch interrupted_download scenario_data true
     scenario_world).1 = Raise DownloadBaseException ∧
  stdout (classify_pdb_batch interrupted_download scenario_data true
            scenario_world).2 = stdout scenario_world.
Proof.
  assert (valid_input scenario_world scenario_data) as Hv
    by (split; compute_done).
  assert (¬ caught interrupted_download
              (tasks_of (pickle (objs scenario_world) scenario_data)))
    as Hc by compute_done.
  split; [exact Hv|]. split; [exact Hc|].
  destruct (sequential_run_interrupted interrupted_download scenario_data
              scenario_world true Hv) as [Hiff Hrest].
  split; [apply Hiff, Hc | apply (Hrest Hc)].
Defined.

(** X11: a concurrent run never ends with an exception of the capability,
    whatever the capability raises: its loops come to their end, the
    sequence of a group in the mapping of a category holds the identifiers
    of the group with that category, up to their order, and an identifier
    on which the capability raises outside [Exception] is in no sequence;
    the run ends with [None], or with the division by zero of the
    reporter. *)
Theorem concurrent_run_never_interrupted
    (download_pdb : string → string → download_result)
    (completion_order : list (string * string) → list (string * string))
    (data : pydict) (w : world) (verbose : bool) :
  valid_input w data →
  (∀ ts, completion_order ts ≡ₚ ts) →
  (parallel_classify_pdb_batch download_pdb completion_order
     data verbose w).1
    = (if verbose && bool_decide (total_len (objs w) data = 0)
       then Raise ZeroDivisionError else Ok PyNone) ∧
  ∃ s w1,
    parallel_phase download_pdb completion_order data w = (Ok s, w1) ∧
    ∀ k v o,
      (k, v) ∈ pickle (objs w) data →
      ∃ e,
        entry (objs w1) s o k = Some e ∧
        e ≡ₚ filter (λ x, outcome_of download_pdb x = Some o) v ∧
        ∀ x, outcome_of download_pdb x = None → x ∉ e.
Proof.
  intros Hv Hperm.
  destruct (parallel_phase_classified download_pdb completion_order
              Hperm data w Hv) as (s & w1 & Hrun & _ & Hcl).
  split.
  - erewrite parallel_classify_pdb_batch_eq by exact Hrun.
    by rewrite finish_result, (cl_total _ _ _ _ _ Hcl).
  - exists s, w1. split; [exact Hrun|]. intros k v o Hin.
    destruct (cl_entries _ _ _ _ _ Hcl k v o Hin) as (e & He & Pe).
    exists e. split; [exact He|]. split; [exact Pe|].
    intros x Hnone Hx. rewrite Pe in Hx.
    apply list_elem_of_filter in Hx as [Hsome _]. congruence.
Qed.

Lemma concurrent_run_never_interrupted_witness :
  valid_input scenario_world scenario_data ∧
  outcome_of interrupted_download "x2" = None ∧
  (parallel_classify_pdb_batch interrupted_download reverse scenario_data
     true scenario_world).1 = Ok PyNone.
Proof.
  assert (valid_input scenario_world scenario_data) as Hv
    by (split; compute_done).
  split; [exact Hv|]. split; [reflexivity|].
  destruct (concurrent_run_never_interrupted interrupted_download reverse
              scenario_data scenario_world true Hv
              ltac:(intros ts; apply reverse_Permutation)) as [Hend _].
  exact Hend.
Defined.

(** ** The entry point *)

Lemma load_eq (p : list (string * list string)) w :
  load p w =
    (Ok (zip p.*1 (seq (length (objs w)) (length p))),
     World (objs w ++ p.*2) (disk w) (stdout w)).
Proof.
  revert w. induction p as [|[k v] p IH]; intros w; simpl.
  - unfold ret. rewrite app_nil_r. by destruct w.
  - unfold bind at 1. unfold new_list_of at 1.
    erewrite bind_Ok by apply IH. unfold ret. simpl.
    rewrite length_app, <-app_assoc. simpl.
    by rewrite Nat.add_1_r.
Qed.

Lemma pickle_loaded (h0 : list (list string))
    (p : list (string * list string)) :
  pickle (h0 ++ p.*2) (zip p.*1 (seq (length h0) (length p))) = p.
Proof.
  revert h0. induction p as [|[k v] p IH]; intros h0; [done|].
  cbn [fmap list_fmap fst snd length seq zip zip_with pickle].
  fold (pickle (h0 ++ v :: p.*2) (zip p.*1 (seq (S (length h0)) (length p)))).
  rewrite list_lookup_total_middle by done. f_equal.
  specialize (IH (h0 ++ [v])).
  rewrite length_app, Nat.add_1_r, <-app_assoc in IH. exact IH.
Qed.

Lemma load_valid (p : list (string * list string)) w :
  NoDup p.*1 →
  let d := zip p.*1 (seq (length (objs w)) (length p)) in
  let w' := World (objs w ++ p.*2) (disk w) (stdout w) in
  valid_input w' d ∧ pickle (objs w') d = p.
Proof.
  intros Hnd d w'. split; [split|].
  - subst d. rewrite fst_zip; [done|]. by rewrite length_seq, length_fmap.
  - subst d w'. rewrite snd_zip by by rewrite length_seq, length_fmap.
    apply Forall_forall. intros l Hl. apply elem_of_seq in Hl. simpl.
    rewrite length_app, length_fmap. lia.
  - apply pickle_loaded.
Qed.

Lemma then_none_world {A} (m : M A) w :
  ((m ;; ret PyNone) w).2 = (m w).2.
Proof. unfold bind, ret. by destruct (m w) as [[a|e] w']. Qed.

Lemma then_none_result (m : M pyvalue) w :
  (m w).1 = Ok PyNone ∨ (∃ e, (m w).1 = Raise e) →
  ((m ;; ret PyNone) w).1 = (m w).1.
Proof.
  unfold bind, ret. destruct (m w) as [[a|e] w']; simpl; [|done].
  intros [->|[e He]]; done.
Qed.

Lemma main_on_file
    (download_pdb : string → string → download_result)
    (completion_order : list (string * string) → list (string * string))
    (read_pkl : string → option (list (string * list string)))
    (classification_type : string) (verbose : bool) (pdb_id_path : string)
    (w : world) (input : list (string * list string)) :
  (∀ ts, completion_order ts ≡ₚ ts) →
  read_pkl pdb_id_path = Some input →
  NoDup input.*1 →
  caught download_pdb (tasks_of input) →
  let run :=
    main download_pdb completion_order read_pkl classification_type verbose
      pdb_id_path w in
  let sc := without_empty (select download_pdb Complete input) in
  let si := without_empty (select download_pdb Incomplete input) in
  let sn := without_empty (select download_pdb NotRetrievable input) in
  run.1 = inr (if verbose && bool_decide (length (tasks_of input) = 0)
               then Raise ZeroDivisionError else Ok PyNone) ∧
  (∀ l, l < length (objs w) → objs run.2 !! l = objs w !! l) ∧
  (classification_type ≠ "parallel" →
   ∃ checkpoints,
     disk run.2 = disk w ++ checkpoints ++ files_of sc si sn ∧
     Forall (λ f, f ∈ output_files) checkpoints.*1) ∧
  (classification_type = "parallel" →
   ∃ pc pi pn,
     disk run.2 = disk w ++ files_of pc pi pn ∧
     same_up_to_order pc sc ∧ same_up_to_order pi si ∧
     same_up_to_order pn sn).
Proof.
  intros Hperm Hfile Hnd Hcaught run sc si sn. subst run. unfold main.
  rewrite Hfile. cbn [fst snd].
  unfold bind at 1 3 5 7. rewrite load_eq.
  set (d := zip input.*1 (seq (length (objs w)) (length input))).
  set (w' := World (objs w ++ input.*2) (disk w) (stdout w)).
  destruct (load_valid input w Hnd) as [Hv Hin]. fold d w' in Hv, Hin.
  assert (caught download_pdb (tasks_of (pickle (objs w') d))) as Hcaught'
    by by rewrite Hin.
  destruct (run_endings download_pdb completion_order d w' verbose
              Hv Hcaught' Hperm) as [Eseq Epar].
  rewrite total_len_tasks, Hin in Eseq, Epar.
  assert (∀ l, l < length (objs w) → objs w' !! l = objs w !! l) as Hframe.
  { intros l Hl. subst w'. simpl. by rewrite lookup_app_l. }
  assert (length (objs w) ≤ length (objs w')) as Hgrow.
  { subst w'. simpl. rewrite length_app. lia. }
  split; [|split; [|split]].
  - f_equal. destruct (decide (classification_type = "parallel")).
    + rewrite then_none_result; [done|]. rewrite Epar.
      destruct (_ && _); eauto.
    + rewrite then_none_result; [done|]. rewrite Eseq.
      destruct (_ && _); eauto.
  - intros l Hl. rewrite <-(Hframe l Hl).
    destruct (decide (classification_type = "parallel")).
    + rewrite then_none_world.
      apply parallel_classify_pdb_batch_frame; [done..|lia].
    + rewrite then_none_world.
      apply classify_pdb_batch_frame; [done|lia].
  - intros Hty. rewrite decide_False by done.
    rewrite then_none_world.
    destruct (sequential_disk download_pdb d w' verbose Hv Hcaught')
      as (ck & Hd & Hnames).
    rewrite Hin in Hd, Hnames. exists ck. split; [exact Hd|].
    rewrite Hnames. apply checkpoint_files_names.
  - intros Hty. rewrite decide_True by done. rewrite then_none_world.
    destruct (parallel_disk download_pdb completion_order d w' verbose
                Hv Hperm) as (pc & pi & pn & Hd & Hc & Hi & Hn).
    rewrite Hin in Hc, Hi, Hn. by exists pc, pi, pn.
Qed.

(** X9: [main] on a path that has no file stops with [FileNotFoundError]
    and leaves the world as it is.  On a file that holds a dictionary it
    runs a batch on the content of the file, loaded into objects of its
    own; when the capability raises nothing outside [Exception] on the
    identifiers of the file, it ends with [None], or with the
    [ZeroDivisionError] of a verbose report on an input without
    identifiers; it leaves the objects it found as they are; every type but
    ["parallel"] runs the sequential mode, which calls [save_pkl] on the
    three output paths only and ends with the groups and identifiers of the
    input file by category, and ["parallel"] runs the concurrent mode,
    which writes the three files once, with the same groups and the same
    identifiers up to order. *)
Theorem main_end_to_end
    (download_pdb : string → string → download_result)
    (completion_order : list (string * string) → list (string * string))
    (read_pkl : string → option pkl)
    (classification_type : string) (verbose : bool) (pdb_id_path : string)
    (w : world) :
  (∀ ts, completion_order ts ≡ₚ ts) →
  let run :=
    main download_pdb completion_order read_pkl classification_type verbose
      pdb_id_path w in
  match read_pkl pdb_id_path with
  | None => run = (inl (FileNotFoundError pdb_id_path), w)
  | Some input =>
      NoDup input.*1 →
      caught download_pdb (tasks_of input) →
      let sc := without_empty (select download_pdb Complete input) in
      let si := without_empty (select download_pdb Incomplete input) in
      let sn := without_empty (select download_pdb NotRetrievable input) in
      run.1 = inr (if verbose && bool_decide (length (tasks_of input) = 0)
                   then Raise ZeroDivisionError else Ok PyNone) ∧
      (∀ l, l < length (objs w) → objs run.2 !! l = objs w !! l) ∧
      (classification_type ≠ "parallel" →
       ∃ checkpoints,
         disk run.2 = disk w ++ checkpoints ++ files_of sc si sn ∧
         Forall (λ f, f ∈ output_files) checkpoints.*1) ∧
      (classification_type = "parallel" →
       ∃ pc pi pn,
         disk run.2 = disk w ++ files_of pc pi pn ∧
         same_up_to_order pc sc ∧ same_up_to_order pi si ∧
         same_up_to_order pn sn)
  end.
Proof.
  intros Hperm run.
  destruct (read_pkl pdb_id_path) as [input|] eqn:Hfile.
  - intros Hnd Hcaught. by apply main_on_file.
  - subst run. unfold main. by rewrite Hfile.
Qed.

Lemma main_end_to_end_witness :
  scenario_files "pdb_ids.pkl" = Some [("A", ["x1"; "x2"]); ("B", ["y1"])] ∧
  (main scenario_download reverse scenario_files "sequential" true
     "pdb_ids.pkl" empty_world).1
    = inr (if true && bool_decide
                        (length (tasks_of [("A", ["x1"; "x2"]);
                                           ("B", ["y1"])]) = 0)
           then Raise ZeroDivisionError else Ok PyNone) ∧
  main scenario_download reverse scenario_files "parallel" true
    "missing.pkl" empty_world
    = (inl (FileNotFoundError "missing.pkl"), empty_world).
Proof.
  assert (∀ ts : list (string * string), reverse ts ≡ₚ ts) as Hperm
    by (intros ts; apply reverse_Permutation).
  assert (scenario_files "pdb_ids.pkl"
          = Some [("A", ["x1"; "x2"]); ("B", ["y1"])]) as Hfile
    by reflexivity.
  assert (scenario_files "missing.pkl" = None) as Hnone by reflexivity.
  split; [exact Hfile|]. split.
  - pose proof (main_end_to_end scenario_download reverse scenario_files
                  "sequential" true "pdb_ids.pkl" empty_world Hperm)
      as Hmain.
    cbv zeta in Hmain. rewrite Hfile in Hmain.
    destruct (Hmain ltac:(compute_done) ltac:(compute_done)) as [Hend _].
    exact Hend.
  - pose proof (main_end_to_end scenario_download reverse scenario_files
                  "parallel" true "missing.pkl" empty_world Hperm)
      as Hmain.
    cbv zeta in Hmain. rewrite Hnone in Hmain. exact Hmain.
Defined.
